(** * Incremental asset-compilation tasks (filament-tasks.gradle)

    A shallow embedding of the Gradle build script that defines the three
    incremental tasks [MaterialCompiler], [IblGenerator] and [MeshCompiler],
    with the parts of Groovy, java.io.File and the Gradle task API that the
    script calls.

    - Groovy strings: [lastIndexOf], the range subscript [s[a..b]] with its
      negative indices and its StringIndexOutOfBoundsException.
    - Files: a path is the list of its segments; the file system is the finite
      set of the regular files that exist, a directory existing through what
      lies below it.
    - Effects: a state-and-exception monad over the file system and the trace
      of what the script did (log lines, process launches, deletions). An
      exception leaves in place what was done before it.
    - The host: Gradle decides what is out of date and what was removed, and
      keeps the snapshot of the inputs between runs.

    The definitions come first, the properties after them. *)

From Stdlib Require Import ZArith Ascii String.
From stdpp Require Import base gmap sets list strings.

Open Scope string_scope.
Open Scope Z_scope.
Open Scope list_scope.

(** ** Groovy and Java strings *)

Module Groovy.

(** The exceptions the script can raise. *)
Inductive Throwable :=
  | StringIndexOutOfBoundsException
  | StopActionException (msg : string)
  | ExecException_start (command : string)
  | ExecException_exit (command : string) (exitValue : Z).

Definition Exc (A : Type) : Type := Throwable + A.

Definition size (s : string) : Z := Z.of_nat (String.length s).

(** [String.lastIndexOf]: the index of the last occurrence, or -1. *)
Fixpoint lastIndexOf (s : string) (c : ascii) : Z :=
  match s with
  | EmptyString => -1
  | String d s' =>
      let r := lastIndexOf s' c in
      if 0 <=? r then r + 1 else if Ascii.eqb d c then 0 else -1
  end.

(** [String.substring(begin, end)]. *)
Definition substring (s : string) (b e : Z) : Exc string :=
  if (b <? 0) || (size s <? e) || (e <? b)
  then inl StringIndexOutOfBoundsException
  else inr (String.substring (Z.to_nat b) (Z.to_nat (e - b)) s).

Fixpoint reverse_onto (s acc : string) : string :=
  match s with
  | EmptyString => acc
  | String c s' => reverse_onto s' (String c acc)
  end.

Definition reverse (s : string) : string := reverse_onto s EmptyString.

(** The borders of an inclusive range [from..to] taken on a sequence of
    [sz] elements (IntRange.subListBorders): negative ends count from the
    end, and a range that runs backwards is read in reverse. *)
Record RangeInfo := { ri_from : Z; ri_to : Z; ri_reverse : bool }.

Definition subListBorders (sz from to : Z) : RangeInfo :=
  let tempFrom := if from <? 0 then from + sz else from in
  let tempTo := if to <? 0 then to + sz else to in
  if tempTo <? tempFrom
  then {| ri_from := tempTo; ri_to := tempFrom + 1; ri_reverse := true |}
  else {| ri_from := tempFrom; ri_to := tempTo + 1; ri_reverse := false |}.

(** The subscript [text[from..to]] on a string. *)
Definition getAt (text : string) (from to : Z) : Exc string :=
  let info := subListBorders (size text) from to in
  match substring text (ri_from info) (ri_to info) with
  | inl e => inl e
  | inr answer => inr (if ri_reverse info then reverse answer else answer)
  end.

End Groovy.

Import Groovy.

(** ** Files *)

(** A [File] is an abstract path, the list of its segments from the root. *)
Definition File : Type := list string.

(** [File.getName]: the last segment. *)
Definition name (f : File) : string := List.last f "".

(** [new File(parent, child)]. *)
Definition File_child (parent : File) (child : string) : File := parent ++ [child].

(** [File.getAbsolutePath], also what a File prints as. *)
Fixpoint absolutePath (f : File) : string :=
  match f with
  | [] => ""
  | seg :: f' => "/" +:+ seg +:+ absolutePath f'
  end.

Definition dot : ascii := "."%char.

(** ** The world the script acts on *)

Inductive LogLevel := LIFECYCLE | ERROR.

(** An argument handed to a process: a string, or a File (passed as its path). *)
Inductive Arg :=
  | AString (s : string)
  | AFile (f : File).

#[global] Instance Arg_eq_dec : EqDecision Arg.
Proof. solve_decision. Defined.

(** What the script did, in order. *)
Inductive Event :=
  | EvLog (level : LogLevel) (msg : string)
  | EvExec (executable : string) (args : list Arg) (exitValue : Z)
  | EvDelete (f : File) (deleted : bool).

(** The file system is the set of the regular files that exist; a directory
    exists when a file lies below it. *)
Record World := { files : gset File; trace : list Event }.

(** The machine the build runs on: its operating system, and what a process
    does when launched (its exit value and the files it leaves behind). What
    a process prints goes to the logger through the two streams the closure
    makes for it, [out] and [err]; no property below is about the log of a
    tool, and the model leaves it out, and the stream [err] with it. *)
Class Platform := {
  isWindows : bool;
  process : string → list Arg → gset File → Z * gset File
}.

(** Statements run in a world and either return or throw; what was done
    before a throw stays done. *)
Definition M (A : Type) : Type := World → Exc A * World.

Definition throw {A} (e : Throwable) : M A := λ w, (inl e, w).

#[global] Instance M_ret : MRet M := λ A a w, (inr a, w).

#[global] Instance M_bind : MBind M := λ A B k m w,
  match m w with
  | (inl e, w') => (inl e, w')
  | (inr a, w') => k a w'
  end.

Definition lift {A} (r : Exc A) : M A :=
  match r with inl e => throw e | inr a => mret a end.

(** [list.each { x -> body }] *)
Fixpoint forEach {A} (l : list A) (body : A → M unit) : M unit :=
  match l with
  | [] => mret tt
  | x :: l' => body x ;; forEach l' body
  end.

(** *** java.io.File *)

(** [File.exists()]: a regular file, or a directory with something in it. *)
Definition File_exists (fs : gset File) (p : File) : bool :=
  bool_decide (set_Exists (λ f, p `prefix_of` f) fs).

(** [File.delete()]: removes a regular file and answers [true]; answers
    [false], leaving everything in place, for a path that is no file, be it
    missing or a directory that still has content. It does not throw. The
    file system of the model has no file that resists deletion (through
    permissions or a lock): the properties below do not rest on a deletion
    by [File.delete] having gone through. *)
Definition File_delete (f : File) : M bool :=
  λ w, if bool_decide (f ∈ files w)
       then (inr true, {| files := files w ∖ {[f]};
                          trace := trace w ++ [EvDelete f true] |})
       else (inr false, {| files := files w;
                           trace := trace w ++ [EvDelete f false] |}).

(** *** Gradle's project *)

(** A one-segment include pattern, where [*] stands for any run of
    characters and [?] for one character. *)
Fixpoint glob_list (p : list ascii) : list ascii → bool :=
  match p with
  | [] => λ s, match s with [] => true | _ => false end
  | c :: p' =>
      if Ascii.eqb c "*" then
        fix star (s : list ascii) : bool :=
          glob_list p' s || match s with [] => false | _ :: s' => star s' end
      else
        λ s, match s with
             | [] => false
             | d :: s' => (Ascii.eqb c "?" || Ascii.eqb c d) && glob_list p' s'
             end
  end.

Definition glob (pattern s : string) : bool :=
  glob_list (list_ascii_of_string pattern) (list_ascii_of_string s).

(** The path of [f] relative to [dir], when [f] lies below [dir]. *)
Fixpoint relativePath (dir f : File) : option (list string) :=
  match dir, f with
  | [], _ => Some f
  | d :: dir', s :: f' => if bool_decide (d = s) then relativePath dir' f' else None
  | _ :: _, [] => None
  end.

(** [project.fileTree(dir).matching { include pattern }] for a pattern of one
    segment: the files directly in [dir] whose name the pattern matches.
    Gradle leaves out of a file tree what its default excludes name
    ([.DS_Store], [.gitignore], names ending in [~] and the like); the model
    has no such list, so that its tree may hold more than Gradle's, never
    less. The properties below rely on the tree holding nothing but files
    directly in [dir] with a matching name; where a run is evaluated, the
    files it deletes are none that the default excludes name. *)
Definition matching (dir : File) (pattern : string) (f : File) : bool :=
  match relativePath dir f with
  | Some [n] => glob pattern n
  | _ => false
  end.

Definition fileTree_matching (dir : File) (pattern : string) (fs : gset File) : gset File :=
  filter (λ f, matching dir pattern f = true) fs.

(** [project.delete(tree)]: deletes every file of the tree. *)
Definition project_delete (tree : gset File → gset File) : M unit :=
  λ w, (inr tt, {| files := files w ∖ tree (files w);
                   trace := trace w ++ ((λ f, EvDelete f true) <$> elements (tree (files w))) |}).

(** [project.exec { executable e; args ... }]: launches the process and waits;
    throws when the process cannot be started and, the exit value not being
    ignored, when it is not zero. *)
Definition project_exec `{Platform} (executable : File) (args : list Arg) : M unit :=
  λ w, if bool_decide (executable ∈ files w) then
         let r := process (absolutePath executable) args (files w) in
         let w' := {| files := r.2;
                      trace := trace w ++ [EvExec (absolutePath executable) args r.1] |} in
         if r.1 =? 0 then (inr tt, w')
         else (inl (ExecException_exit (absolutePath executable) r.1), w')
       else (inl (ExecException_start (absolutePath executable)), w).

(** [class LogOutputStream extends ByteArrayOutputStream]: the level the
    stream logs at, and the bytes written and not yet flushed. *)
Module LogOutputStream.
Record t := { level : LogLevel; buf : string }.

Definition new (level : LogLevel) : t := {| level := level; buf := "" |}.

(** [write(bytes)], as inherited. *)
Definition write (self : t) (bytes : string) : t :=
  {| level := level self; buf := buf self +:+ bytes |}.

(** [flush()]: [logger.log(level, toString()); reset()] *)
Definition flush (self : t) : M t :=
  λ w, (inr {| level := level self; buf := "" |},
        {| files := files w; trace := trace w ++ [EvLog (level self) (buf self)] |}).
End LogOutputStream.

Definition newline : string := String (ascii_of_nat 10) EmptyString.

(** [IncrementalTaskInputs]: whether the run is incremental, the input files
    that are out of date and the input files that were removed. *)
Record IncrementalTaskInputs := {
  incremental : bool;
  outOfDate_files : list File;
  removed_files : list File
}.

Definition outOfDate (inputs : IncrementalTaskInputs) (action : File → M unit) : M unit :=
  forEach (outOfDate_files inputs) action.

Definition removed (inputs : IncrementalTaskInputs) (action : File → M unit) : M unit :=
  forEach (removed_files inputs) action.

(** ** Tool discovery *)

(** [getBinaries(name, toolsPath)] *)
Definition getBinaries (name : string) (toolsPath : File) (fs : gset File) : Exc (list File) :=
  let tool := [[ "bin"; name +:+ ".exe" ]; [ "bin"; name ]] in
  let toolFullPath := (λ path, toolsPath ++ path) <$> tool in
  if negb (existsb (File_exists fs) toolFullPath)
  then inl (StopActionException
              ("No " +:+ name +:+ " binary could be found in " +:+ absolutePath toolsPath +:+
               "/bin. Ensure Filament has been built/installed before building this app."))
  else inr toolFullPath.

(** ** The three tasks *)

Module MaterialCompiler.
Record t := { matcPath : File; inputDir : File; outputDir : File }.

Definition new `{Platform} (matcFullPath : list File) (inputDir outputDir : File) : t :=
  {| matcPath := if isWindows then matcFullPath !!! 0%nat else matcFullPath !!! 1%nat;
     inputDir := inputDir; outputDir := outputDir |}.

(** [new File(outputDir, file.name[0..file.name.lastIndexOf('.')] + 'filamat')] *)
Definition getOutputFile (self : t) (file : File) : Exc File :=
  match getAt (name file) 0 (lastIndexOf (name file) dot) with
  | inl e => inl e
  | inr base => inr (File_child (outputDir self) (base +:+ "filamat"))
  end.

(** The closure given to [inputs.outOfDate]. *)
Definition compile `{Platform} (self : t) (file : File) : M unit :=
  let out := LogOutputStream.new LIFECYCLE in
  let header := "Compiling material " +:+ absolutePath file +:+ newline in
  out ← LogOutputStream.flush (LogOutputStream.write out header);
  output ← lift (getOutputFile self file);
  project_exec (matcPath self)
    [AString "-O"; AString "-p"; AString "mobile"; AString "-o"; AFile output; AFile file].

(** The closure given to [inputs.removed]. *)
Definition remove (self : t) (file : File) : M unit :=
  out ← lift (getOutputFile self file);
  _ ← File_delete out;
  mret tt.

Definition execute `{Platform} (self : t) (inputs : IncrementalTaskInputs) : M unit :=
  (if negb (incremental inputs)
   then project_delete (fileTree_matching (outputDir self) "*.filamat")
   else mret tt) ;;
  outOfDate inputs (compile self) ;;
  removed inputs (remove self).
End MaterialCompiler.

Module IblGenerator.
Record t := { cmgenPath : File; inputFile : File; outputDir : File }.

Definition new `{Platform} (cmgenFullPath : list File) (inputFile outputDir : File) : t :=
  {| cmgenPath := if isWindows then cmgenFullPath !!! 0%nat else cmgenFullPath !!! 1%nat;
     inputFile := inputFile; outputDir := outputDir |}.

(** [new File(outputDir, file.name[0..file.name.lastIndexOf('.') - 1])] *)
Definition getOutputFile (self : t) (file : File) : Exc File :=
  match getAt (name file) 0 (lastIndexOf (name file) dot - 1) with
  | inl e => inl e
  | inr base => inr (File_child (outputDir self) base)
  end.

Definition generate `{Platform} (self : t) (file : File) : M unit :=
  let out := LogOutputStream.new LIFECYCLE in
  let header := "Generating IBL " +:+ absolutePath file +:+ newline in
  out ← LogOutputStream.flush (LogOutputStream.write out header);
  project_exec (cmgenPath self)
    [AString "-x"; AFile (outputDir self); AFile file] ;;
  project_exec (cmgenPath self)
    [AString "--format=rgbm"; AString "--extract-blur=0.08";
     AString ("--extract=" +:+ absolutePath (outputDir self)); AFile file].

Definition remove (self : t) (file : File) : M unit :=
  out ← lift (getOutputFile self file);
  _ ← File_delete out;
  mret tt.

Definition execute `{Platform} (self : t) (inputs : IncrementalTaskInputs) : M unit :=
  (if negb (incremental inputs)
   then project_delete (fileTree_matching (outputDir self) "*")
   else mret tt) ;;
  outOfDate inputs (generate self) ;;
  removed inputs (remove self).
End IblGenerator.

Module MeshCompiler.
Record t := { filameshPath : File; inputFile : File; outputDir : File }.

Definition new `{Platform} (filameshFullPath : list File) (inputFile outputDir : File) : t :=
  {| filameshPath := if isWindows then filameshFullPath !!! 0%nat else filameshFullPath !!! 1%nat;
     inputFile := inputFile; outputDir := outputDir |}.

(** [new File(outputDir, file.name[0..file.name.lastIndexOf('.')] + 'filamesh')] *)
Definition getOutputFile (self : t) (file : File) : Exc File :=
  match getAt (name file) 0 (lastIndexOf (name file) dot) with
  | inl e => inl e
  | inr base => inr (File_child (outputDir self) (base +:+ "filamesh"))
  end.

Definition compile `{Platform} (self : t) (file : File) : M unit :=
  let out := LogOutputStream.new LIFECYCLE in
  let header := "Compiling mesh " +:+ absolutePath file +:+ newline in
  out ← LogOutputStream.flush (LogOutputStream.write out header);
  output ← lift (getOutputFile self file);
  project_exec (filameshPath self) [AFile file; AFile output].

Definition remove (self : t) (file : File) : M unit :=
  out ← lift (getOutputFile self file);
  _ ← File_delete out;
  mret tt.

Definition execute `{Platform} (self : t) (inputs : IncrementalTaskInputs) : M unit :=
  (if negb (incremental inputs)
   then project_delete (fileTree_matching (outputDir self) "*.filamesh")
   else mret tt) ;;
  outOfDate inputs (compile self) ;;
  removed inputs (remove self).
End MeshCompiler.

(** The three tasks the script registers. *)
Inductive Task :=
  | compileMaterials (self : MaterialCompiler.t)
  | generateIbl (self : IblGenerator.t)
  | compileMesh (self : MeshCompiler.t).

Definition Task_execute `{Platform} (task : Task) : IncrementalTaskInputs → M unit :=
  match task with
  | compileMaterials self => MaterialCompiler.execute self
  | generateIbl self => IblGenerator.execute self
  | compileMesh self => MeshCompiler.execute self
  end.

Definition Task_getOutputFile (task : Task) : File → Exc File :=
  match task with
  | compileMaterials self => MaterialCompiler.getOutputFile self
  | generateIbl self => IblGenerator.getOutputFile self
  | compileMesh self => MeshCompiler.getOutputFile self
  end.

Definition Task_remove (task : Task) : File → M unit :=
  match task with
  | compileMaterials self => MaterialCompiler.remove self
  | generateIbl self => IblGenerator.remove self
  | compileMesh self => MeshCompiler.remove self
  end.

Definition Task_toolPath (task : Task) : File :=
  match task with
  | compileMaterials self => MaterialCompiler.matcPath self
  | generateIbl self => IblGenerator.cmgenPath self
  | compileMesh self => MeshCompiler.filameshPath self
  end.

(** The closure a task gives to [inputs.outOfDate]. *)
Definition Task_process `{Platform} (task : Task) : File → M unit :=
  match task with
  | compileMaterials self => MaterialCompiler.compile self
  | generateIbl self => IblGenerator.generate self
  | compileMesh self => MeshCompiler.compile self
  end.

(** The deletion a task starts with when the run is not incremental. *)
Definition Task_clean (task : Task) (inputs : IncrementalTaskInputs) : M unit :=
  if negb (incremental inputs)
  then project_delete
         match task with
         | compileMaterials self => fileTree_matching (MaterialCompiler.outputDir self) "*.filamat"
         | generateIbl self => fileTree_matching (IblGenerator.outputDir self) "*"
         | compileMesh self => fileTree_matching (MeshCompiler.outputDir self) "*.filamesh"
         end
  else mret tt.

(** ** The incremental build host

    The script does not compute what changed: Gradle does, and hands the
    answer to [execute] as its [IncrementalTaskInputs]. This is the contract
    of that interface. The snapshot maps every input file of the last
    successful execution to its fingerprint; the current inputs come as the
    list of the input files with their fingerprints, in the order in which
    the host visits them. Without a snapshot the execution is not
    incremental, every input file is out of date and none is reported
    removed. With one, the files that are new or whose fingerprint differs
    are out of date, and the files of the snapshot that are gone are removed.
    The host records the new snapshot when the task action returns; when the
    action throws, the task has failed and there is no snapshot for the next
    execution to be incremental against. *)

Module Gradle.

Definition incrementalInputs (previous : option (gmap File Z)) (current : list (File * Z))
    : IncrementalTaskInputs :=
  match previous with
  | None =>
      {| incremental := false; outOfDate_files := current.*1; removed_files := [] |}
  | Some snapshot =>
      {| incremental := true;
         outOfDate_files := (filter (λ e, snapshot !! e.1 ≠ Some e.2) current).*1;
         removed_files := filter (λ f, f ∉ current.*1) (elements (dom snapshot)) |}
  end.

Definition run (action : IncrementalTaskInputs → M unit)
    (previous : option (gmap File Z)) (current : list (File * Z)) (w : World)
    : Exc unit * option (gmap File Z) * World :=
  match action (incrementalInputs previous current) w with
  | (inr _, w') => (inr tt, Some (list_to_map current), w')
  | (inl e, w') => (inl e, None, w')
  end.

End Gradle.

(** ** The vocabulary of the properties *)

(** Whether a character occurs in a string. *)
Fixpoint contains (s : string) (c : ascii) : bool :=
  match s with
  | EmptyString => false
  | String d s' => Ascii.eqb d c || contains s' c
  end.

(** A pattern without wildcard matches itself only. *)
Definition literal (p : list ascii) : Prop :=
  Forall (λ c, Ascii.eqb c "*" = false ∧ Ascii.eqb c "?" = false) p.

(** The processes launched along a trace, with their arguments, in order. *)
Definition launches (tr : list Event) : list (string * list Arg) :=
  omap (λ e, match e with EvExec exe args _ => Some (exe, args) | _ => None end) tr.

(** Whether a trace holds a launch with the file among the arguments. *)
Definition launched (file : File) (tr : list Event) : bool :=
  existsb (λ e, match e with
                | EvExec _ args _ => bool_decide (AFile file ∈ args)
                | _ => false
                end) tr.

(** The two launches of the IBL task for one input. *)
Definition cmgen_extract (ibl : IblGenerator.t) (file : File) : list Arg :=
  [AString "-x"; AFile (IblGenerator.outputDir ibl); AFile file].

Definition cmgen_extract_blur (ibl : IblGenerator.t) (file : File) : list Arg :=
  [AString "--format=rgbm"; AString "--extract-blur=0.08";
   AString ("--extract=" +:+ absolutePath (IblGenerator.outputDir ibl)); AFile file].

(** What a run without snapshot is, for a task that writes below [dir] and
    whose include pattern matches the names in [stale_name]: [execute] first
    deletes files, each of them directly in [dir] and with such a name, then
    runs its closure on every current input, one after the other, and has
    no removal to make; when the run returns, its trace is made of the
    deletions followed by the processing, in which every current input has
    had its launch. *)
Definition full_rebuild `{Platform} (task : Task) (dir : File) (stale_name : string → Prop)
    : Prop :=
  ∀ (current : list (File * Z)) (w : World),
    ∃ stale : gset File,
      (∀ f, f ∈ stale → f ∈ files w ∧ ∃ n, f = File_child dir n ∧ stale_name n) ∧
      Task_execute task (Gradle.incrementalInputs None current) w
        = forEach current.*1 (Task_process task)
            {| files := files w ∖ stale;
               trace := trace w ++ ((λ f, EvDelete f true) <$> elements stale) |} ∧
      (∀ w', Task_execute task (Gradle.incrementalInputs None current) w = (inr tt, w') →
             ∃ processing,
               trace w' = trace w ++ ((λ f, EvDelete f true) <$> elements stale) ++ processing ∧
               ∀ f, f ∈ current.*1 → launched f processing = true).

(** Partial-failure semantics, as a run would show it: the run is reported
    failed, every out-of-date input has had its launch all the same, and the
    snapshot recorded holds the out-of-date inputs other than the bad one. *)
Definition partial_failure `{Platform} (task : Task)
    (previous : option (gmap File Z)) (current : list (File * Z)) (w : World) (bad : File)
    : Prop :=
  let changed := outOfDate_files (Gradle.incrementalInputs previous current) in
  ∃ e snapshot w',
    Gradle.run (Task_execute task) previous current w = (inl e, snapshot, w') ∧
    (∀ f, f ∈ changed → launched f (trace w') = true) ∧
    (∃ s, snapshot = Some s ∧ ∀ f, f ∈ changed → f ≠ bad → is_Some (s !! f)).

(** A deletion that failed during the run, leaving in place what it was to
    delete, shows in the outcome of the run. *)
Definition delete_failures_reported `{Platform} (task : Task)
    (inputs : IncrementalTaskInputs) (w : World) : Prop :=
  ∀ outcome w' f,
    Task_execute task inputs w = (outcome, w') →
    EvDelete f false ∈ trace w' →
    File_exists (files w') f = true →
    ∃ e, outcome = inl e.

(** The claim that a missing tool is fatal at once: for a material task that
    the script could configure and whose tool is not there, the run throws and
    has done nothing. *)
Definition missing_tool_is_fatal `{Platform} (toolsPath inputDir outputDir : File)
    (inputs : IncrementalTaskInputs) (w : World) : Prop :=
  ∀ matcFullPath,
    getBinaries "matc" toolsPath (files w) = inr matcFullPath →
    let task := MaterialCompiler.new matcFullPath inputDir outputDir in
    File_exists (files w) (MaterialCompiler.matcPath task) = false →
    ∃ e, MaterialCompiler.execute task inputs w = (inl e, w).

(** ** Machines and worlds to run on *)

(** A machine on which every tool exits with 1 when [bad] is among its
    arguments and with 0 otherwise, touching no file. *)
Definition fails_on (bad : File) : Platform :=
  {| isWindows := false;
     process := λ _ args fs, (if bool_decide (AFile bad ∈ args) then 1 else 0, fs) |}.

(** A machine on which every tool exits with 0, touching no file. *)
Definition always_ok : Platform :=
  {| isWindows := false; process := λ _ _ fs, (0, fs) |}.

Definition material0 : MaterialCompiler.t :=
  {| MaterialCompiler.matcPath := ["tools"; "bin"; "matc"];
     MaterialCompiler.inputDir := ["in"];
     MaterialCompiler.outputDir := ["out"] |}.

Definition ibl0 : IblGenerator.t :=
  {| IblGenerator.cmgenPath := ["tools"; "bin"; "cmgen"];
     IblGenerator.inputFile := ["in"; "env.hdr"];
     IblGenerator.outputDir := ["out"] |}.

(** The IBL task once its input file has been switched to [/in/sky.hdr]. *)
Definition ibl_sky : IblGenerator.t :=
  {| IblGenerator.cmgenPath := ["tools"; "bin"; "cmgen"];
     IblGenerator.inputFile := ["in"; "sky.hdr"];
     IblGenerator.outputDir := ["out"] |}.

Definition world0 : World :=
  {| files := {[ ["tools"; "bin"; "matc"]; ["in"; "bad.mat"]; ["in"; "good.mat"] ]};
     trace := [] |}.

(** A world in which cmgen has populated [/out/env] for [/in/env.hdr]. *)
Definition world_ibl : World :=
  {| files := {[ ["tools"; "bin"; "cmgen"]; ["out"; "env"; "m0_px.rgbm"] ]};
     trace := [] |}.

(** A world with the Windows binary of matc only. *)
Definition world_exe : World :=
  {| files := {[ ["tools"; "bin"; "matc.exe"]; ["out"; "old.filamat"] ]}; trace := [] |}.

(** ** The top of the script *)

(** The extra properties of the project: [ext.matcFullPath],
    [ext.cmgenFullPath] and [ext.filameshFullPath]. *)
Record Ext := {
  ext_matcFullPath : list File;
  ext_cmgenFullPath : list File;
  ext_filameshFullPath : list File
}.

(** The statements of the script outside the classes. The tools directory is
    [file("../../../../out/release/filament")], or [file("$filament_tools_dir")]
    when the project has that property; the three look-ups follow in turn, and
    the first that throws ends the evaluation of the script. [file] is the
    project's way from a path to a File. *)
Definition script (file : string → File) (filament_tools_dir : option string)
    (fs : gset File) : Exc Ext :=
  let filamentToolsPath :=
    match filament_tools_dir with
    | Some dir => file dir
    | None => file "../../../../out/release/filament"
    end in
  match getBinaries "matc" filamentToolsPath fs with
  | inl e => inl e
  | inr matc =>
      match getBinaries "cmgen" filamentToolsPath fs with
      | inl e => inl e
      | inr cmgen =>
          match getBinaries "filamesh" filamentToolsPath fs with
          | inl e => inl e
          | inr filamesh =>
              inr {| ext_matcFullPath := matc; ext_cmgenFullPath := cmgen;
                     ext_filameshFullPath := filamesh |}
          end
      end
  end.

(** ** More vocabulary *)

Definition Task_outputDir (task : Task) : File :=
  match task with
  | compileMaterials self => MaterialCompiler.outputDir self
  | generateIbl self => IblGenerator.outputDir self
  | compileMesh self => MeshCompiler.outputDir self
  end.

(** A statement emits events of a kind when, from every world and however it
    ends, it only adds such events to the trace. *)
Definition emits {A} (P : Event → Prop) (m : M A) : Prop :=
  ∀ w, ∃ events, trace (m w).2 = trace w ++ events ∧ Forall P events.

(** A statement keeps a file when the file, if there before, is there after,
    however the statement ends. *)
Definition keeps {A} (f : File) (m : M A) : Prop :=
  ∀ w, f ∈ files w → f ∈ files (m w).2.

(** The events a task may add to the trace: log lines, launches of its own
    tool, deletions directly in its output directory. *)
Definition own_event (task : Task) (e : Event) : Prop :=
  match e with
  | EvLog _ _ => True
  | EvExec exe _ _ => exe = absolutePath (Task_toolPath task)
  | EvDelete f _ => ∃ n, f = File_child (Task_outputDir task) n
  end.

(** The deletions among the events all aim at the output of a removed input. *)
Definition deletes_removed_outputs (task : Task) (inputs : IncrementalTaskInputs)
    (e : Event) : Prop :=
  match e with
  | EvDelete f _ => ∃ r, r ∈ removed_files inputs ∧ Task_getOutputFile task r = inr f
  | _ => True
  end.

(** The bytes of several writes, one after the other. *)
Definition joined (chunks : list string) : string := foldr String.append "" chunks.

(** Whether one of the two binaries of a tool is there. *)
Definition has_binary (toolsPath : File) (fs : gset File) (tool : string) : bool :=
  File_exists fs (toolsPath ++ ["bin"; tool +:+ ".exe"])
  || File_exists fs (toolsPath ++ ["bin"; tool]).

(** The two candidates for a tool, the Windows binary first. *)
Definition binaries (toolsPath : File) (tool : string) : list File :=
  [toolsPath ++ ["bin"; tool +:+ ".exe"]; toolsPath ++ ["bin"; tool]].

(** What the script says of a tool it does not find. *)
Definition not_found (toolsPath : File) (tool : string) : Throwable :=
  StopActionException
    ("No " +:+ tool +:+ " binary could be found in " +:+ absolutePath toolsPath +:+
     "/bin. Ensure Filament has been built/installed before building this app.").

Definition mesh0 : MeshCompiler.t :=
  {| MeshCompiler.filameshPath := ["tools"; "bin"; "filamesh"];
     MeshCompiler.inputFile := ["in"; "bunny.obj"];
     MeshCompiler.outputDir := ["out"] |}.

(** A world with the three tools in place and outputs of earlier runs. *)
Definition world_tools : World :=
  {| files := {[ ["tools"; "bin"; "matc"]; ["tools"; "bin"; "cmgen"];
                 ["tools"; "bin"; "filamesh"]; ["out"; "old.filamat"];
                 ["out"; "env"; "m0_px.rgbm"] ]};
     trace := [] |}.

(** * Properties *)

(** ** Strings *)

Lemma size_nonneg s : 0 ≤ size s.
Proof. unfold size. lia. Qed.

Lemma size_String c s : size (String c s) = size s + 1.
Proof. unfold size. cbn [String.length]. lia. Qed.

Lemma append_empty b : "" +:+ b = b.
Proof. reflexivity. Qed.

Lemma append_String c a b : String c a +:+ b = String c (a +:+ b).
Proof. reflexivity. Qed.

Lemma size_app a b : size (a +:+ b) = size a + size b.
Proof.
  induction a as [|c a IH]; [rewrite append_empty; unfold size; cbn; lia|].
  rewrite append_String, !size_String, IH. lia.
Qed.

Lemma lastIndexOf_lt s c : -1 ≤ lastIndexOf s c < size s.
Proof.
  induction s as [|d s IH]; [unfold size; cbn; lia|].
  rewrite size_String. cbn [lastIndexOf].
  destruct (Z.leb_spec 0 (lastIndexOf s c)); [lia|].
  destruct (Ascii.eqb d c); pose proof (size_nonneg s); lia.
Qed.

Lemma lastIndexOf_absent s c : contains s c = false → lastIndexOf s c = -1.
Proof.
  induction s as [|d s IH]; [done|]. cbn.
  intros [Hd Hs]%orb_false_iff. rewrite (IH Hs), Hd. done.
Qed.

(** A string in which [c] occurs splits at the last occurrence. *)
Lemma lastIndexOf_split s c :
  contains s c = true →
  ∃ base ext, s = base +:+ String c ext ∧ contains ext c = false
              ∧ lastIndexOf s c = size base.
Proof.
  induction s as [|d s IH]; [done|]. cbn [contains lastIndexOf].
  destruct (contains s c) eqn:Hs.
  - intros _. destruct (IH eq_refl) as (base & ext & -> & Hext & Hi).
    exists (String d base), ext. rewrite Hi, size_String.
    destruct (Z.leb_spec 0 (size base)); [done|]. pose proof (size_nonneg base). lia.
  - rewrite orb_false_r. intros Hd. rewrite (lastIndexOf_absent _ _ Hs). cbn.
    rewrite Hd. apply Ascii.eqb_eq in Hd as ->. by exists "", s.
Qed.

Lemma substring_prefix a b :
  String.substring 0 (String.length a) (a +:+ b) = a.
Proof.
  induction a as [|c a IH]; [by destruct b|].
  rewrite append_String. cbn [String.length String.substring]. by rewrite IH.
Qed.

Lemma subListBorders_forward sz to :
  0 ≤ to → subListBorders sz 0 to = {| ri_from := 0; ri_to := to + 1; ri_reverse := false |}.
Proof.
  intros Hto. unfold subListBorders. cbn.
  destruct (Z.ltb_spec to 0); [lia|]. by destruct (Z.ltb_spec to 0); [lia|].
Qed.

Lemma subListBorders_from_end sz to :
  to < 0 → 0 ≤ to + sz →
  subListBorders sz 0 to = {| ri_from := 0; ri_to := to + sz + 1; ri_reverse := false |}.
Proof.
  intros Hto Hsz. unfold subListBorders. cbn.
  destruct (Z.ltb_spec to 0); [|lia]. by destruct (Z.ltb_spec (to + sz) 0); [lia|].
Qed.

Lemma subListBorders_backward sz to :
  to < 0 → to + sz < 0 →
  subListBorders sz 0 to = {| ri_from := to + sz; ri_to := 1; ri_reverse := true |}.
Proof.
  intros Hto Hsz. unfold subListBorders. cbn.
  destruct (Z.ltb_spec to 0); [|lia]. by destruct (Z.ltb_spec (to + sz) 0); [|lia].
Qed.

Lemma substring_from_0 s e :
  0 ≤ e ≤ size s → substring s 0 e = inr (String.substring 0 (Z.to_nat e) s).
Proof.
  intros He. unfold substring. cbn.
  destruct (Z.ltb_spec (size s) e); [lia|]. destruct (Z.ltb_spec e 0); [lia|].
  cbn. by rewrite Z.sub_0_r.
Qed.

Lemma substring_negative s b e : b < 0 → substring s b e = inl StringIndexOutOfBoundsException.
Proof. intros Hb. unfold substring. by destruct (Z.ltb_spec b 0); [|lia]. Qed.

(** [text[0..i]] for an index inside the text is its first [i + 1] characters. *)
Lemma getAt_prefix a b n :
  n = size a - 1 → 0 ≤ n → getAt (a +:+ b) 0 n = inr a.
Proof.
  intros -> Hn. unfold getAt. rewrite subListBorders_forward by done.
  cbn [ri_from ri_to ri_reverse]. rewrite substring_from_0.
  - replace (Z.to_nat _) with (String.length a) by (unfold size; lia).
    by rewrite substring_prefix.
  - rewrite size_app. pose proof (size_nonneg b). lia.
Qed.

(** [text[0..-k]] drops the last [k - 1] characters, when there are that many. *)
Lemma getAt_from_end a b k :
  k < 0 → size b = - k - 1 → 0 < size a → getAt (a +:+ b) 0 k = inr a.
Proof.
  intros Hk Hb Ha. unfold getAt. rewrite size_app.
  rewrite subListBorders_from_end by lia.
  cbn [ri_from ri_to ri_reverse]. rewrite substring_from_0.
  - replace (Z.to_nat _) with (String.length a) by (unfold size in *; lia).
    by rewrite substring_prefix.
  - rewrite size_app. lia.
Qed.

(** [text[0..-k]] on a text of fewer than [k] characters throws. *)
Lemma getAt_short s k :
  k < 0 → size s < - k → getAt s 0 k = inl StringIndexOutOfBoundsException.
Proof.
  intros Hk Hs. unfold getAt. rewrite subListBorders_backward by lia.
  cbn [ri_from ri_to ri_reverse]. by rewrite substring_negative by lia.
Qed.

Lemma append_empty_r s : s +:+ "" = s.
Proof. induction s as [|c s IH]; [done|]. by rewrite append_String, IH. Qed.

Lemma size_pos s : s ≠ "" → 0 < size s.
Proof. destruct s; [done|]. rewrite size_String. pose proof (size_nonneg s). lia. Qed.

(** [text[0..-1]] is the whole text, when there is one. *)
Lemma getAt_all s : s ≠ "" → getAt s 0 (-1) = inr s.
Proof.
  intros Hs%size_pos. rewrite <-(append_empty_r s) at 1.
  by apply getAt_from_end.
Qed.

(** A string of one character or more ends with a last character. *)
Lemma string_snoc s : s ≠ "" → ∃ init c, s = init +:+ String c "".
Proof.
  induction s as [|d s IH]; [done|]. intros _. destruct s as [|e s].
  - by exists "", d.
  - destruct IH as (init & c & Heq); [done|]. exists (String d init), c.
    by rewrite append_String, <-Heq.
Qed.

(** ** The output mappers *)

Example material_a_mat :
  MaterialCompiler.getOutputFile material0 ["in"; "a.mat"] = inr ["out"; "a.filamat"].
Proof. reflexivity. Qed.

Example ibl_env_hdr :
  IblGenerator.getOutputFile ibl0 ["in"; "env.hdr"] = inr ["out"; "env"].
Proof. reflexivity. Qed.

Example ibl_dotfile :
  IblGenerator.getOutputFile ibl0 ["in"; ".hdr"] = inr ["out"; ".hdr"].
Proof. reflexivity. Qed.

Example material_two_dots :
  MaterialCompiler.getOutputFile material0 ["in"; "lit.v2.mat"] = inr ["out"; "lit.v2.filamat"].
Proof. reflexivity. Qed.

Example material_mesh :
  MaterialCompiler.getOutputFile material0 ["in"; "mesh"] = inr ["out"; "meshfilamat"].
Proof. reflexivity. Qed.

Example ibl_mesh :
  IblGenerator.getOutputFile ibl0 ["in"; "mesh"] = inr ["out"; "mes"].
Proof. reflexivity. Qed.

Lemma name_File_child dir n : name (File_child dir n) = n.
Proof. unfold name, File_child. apply last_last. Qed.

(** On a name with a dot, the subscript of the material and mesh mappers
    keeps everything up to and including the last dot. *)
Lemma getAt_through_last_dot base ext :
  contains ext dot = false →
  let n := base +:+ String dot ext in
  getAt n 0 (lastIndexOf n dot) = inr (base +:+ ".").
Proof.
  intros Hext n.
  assert (contains n dot = true) as Hn.
  { subst n. induction base as [|c base IH]; [done|].
    rewrite append_String. cbn [contains]. by rewrite IH, orb_true_r. }
  destruct (lastIndexOf_split n dot Hn) as (base' & ext' & Heq & Hext' & ->).
  assert (base' = base) as ->.
  { clear Hn. subst n. revert base' Heq.
    induction base as [|c base IH]; intros [|c' base'] Heq;
      rewrite ?append_empty, ?append_String in Heq; simplify_eq.
    - done.
    - exfalso. revert Hext. clear. induction base' as [|c b IH]; cbn; [done|].
      rewrite append_String. cbn. intros [_ ?]%orb_false_iff. auto.
    - exfalso. revert Hext'. clear. induction base as [|c b IH]; cbn; [done|].
      rewrite append_String. cbn. intros [_ ?]%orb_false_iff. auto.
    - f_equal. by apply IH. }
  subst n. replace (base +:+ String dot ext) with ((base +:+ ".") +:+ ext).
  - apply getAt_prefix; [|apply size_nonneg].
    rewrite size_app. change (size ".") with 1. lia.
  - clear. induction base as [|c b IH]; [done|]. by rewrite !append_String, IH.
Qed.

Lemma append_assoc a b c : (a +:+ b) +:+ c = a +:+ b +:+ c.
Proof. induction a as [|x a IH]; [done|]. by rewrite !append_String, IH. Qed.

Lemma material_mesh_mappers_dotted
    (material : MaterialCompiler.t) (mesh : MeshCompiler.t) (file : File) :
  contains (name file) dot = true →
  ∃ base ext,
    name file = base +:+ "." +:+ ext ∧ contains ext dot = false ∧
    MaterialCompiler.getOutputFile material file
      = inr (File_child (MaterialCompiler.outputDir material) (base +:+ ".filamat")) ∧
    MeshCompiler.getOutputFile mesh file
      = inr (File_child (MeshCompiler.outputDir mesh) (base +:+ ".filamesh")).
Proof.
  intros Hdot.
  destruct (lastIndexOf_split _ _ Hdot) as (base & ext & Hname & Hext & _).
  exists base, ext. split_and!; [done..| |].
  - unfold MaterialCompiler.getOutputFile. rewrite Hname.
    rewrite (getAt_through_last_dot base ext Hext). by rewrite append_assoc.
  - unfold MeshCompiler.getOutputFile. rewrite Hname.
    rewrite (getAt_through_last_dot base ext Hext). by rewrite append_assoc.
Qed.

(** C2: for every input file whose name contains a dot, the material mapper
    returns one path, in the output directory, made of the base name and the
    extension [filamat] (what follows the last dot is replaced), and the mesh
    mapper does the same with [filamesh]. *)
Theorem C2_dotted_name_maps_to_compiled_extension
    (material : MaterialCompiler.t) (mesh : MeshCompiler.t) (file : File) :
  contains (name file) dot = true →
  ∃ base ext,
    name file = base +:+ "." +:+ ext ∧ contains ext dot = false ∧
    MaterialCompiler.getOutputFile material file
      = inr (File_child (MaterialCompiler.outputDir material) (base +:+ ".filamat")) ∧
    MeshCompiler.getOutputFile mesh file
      = inr (File_child (MeshCompiler.outputDir mesh) (base +:+ ".filamesh")).
Proof. apply material_mesh_mappers_dotted. Qed.

(** The theorem at [a.mat] and [a.obj]. *)
Lemma C2_witness :
  ∃ base ext,
    "a.mat" = base +:+ "." +:+ ext ∧ contains ext dot = false ∧
    MaterialCompiler.getOutputFile
      {| MaterialCompiler.matcPath := ["tools"; "bin"; "matc"];
         MaterialCompiler.inputDir := ["in"]; MaterialCompiler.outputDir := ["out"] |}
      ["in"; "a.mat"] = inr (File_child ["out"] (base +:+ ".filamat")) ∧
    MeshCompiler.getOutputFile
      {| MeshCompiler.filameshPath := ["tools"; "bin"; "filamesh"];
         MeshCompiler.inputFile := ["in"; "a.mat"]; MeshCompiler.outputDir := ["out"] |}
      ["in"; "a.mat"] = inr (File_child ["out"] (base +:+ ".filamesh")).
Proof.
  apply (C2_dotted_name_maps_to_compiled_extension
           {| MaterialCompiler.matcPath := ["tools"; "bin"; "matc"];
              MaterialCompiler.inputDir := ["in"]; MaterialCompiler.outputDir := ["out"] |}
           {| MeshCompiler.filameshPath := ["tools"; "bin"; "filamesh"];
              MeshCompiler.inputFile := ["in"; "a.mat"]; MeshCompiler.outputDir := ["out"] |}
           ["in"; "a.mat"]).
  reflexivity.
Defined.

(** C3: the IBL mapper throws on the extensionless name [a]: the subscript
    [0..-2] falls before the start of a one-character name. *)
Theorem C3_ibl_mapper_throws_on_one_character_name (ibl : IblGenerator.t) (dir : File) :
  IblGenerator.getOutputFile ibl (File_child dir "a") = inl StringIndexOutOfBoundsException.
Proof.
  unfold IblGenerator.getOutputFile. rewrite name_File_child. reflexivity.
Qed.

(** The material and mesh mappers do return on every extensionless name. *)
Lemma material_mesh_mappers_extensionless
    (material : MaterialCompiler.t) (mesh : MeshCompiler.t) (file : File) :
  contains (name file) dot = false → name file ≠ "" →
  MaterialCompiler.getOutputFile material file
    = inr (File_child (MaterialCompiler.outputDir material) (name file +:+ "filamat")) ∧
  MeshCompiler.getOutputFile mesh file
    = inr (File_child (MeshCompiler.outputDir mesh) (name file +:+ "filamesh")).
Proof.
  intros Hdot Hne.
  unfold MaterialCompiler.getOutputFile, MeshCompiler.getOutputFile.
  by rewrite (lastIndexOf_absent _ _ Hdot), (getAt_all _ Hne).
Qed.

(** The IBL mapper drops the last character of an extensionless name of two
    characters or more, and throws on a shorter one. *)
Lemma ibl_mapper_extensionless (ibl : IblGenerator.t) (file : File) :
  contains (name file) dot = false →
  (2 ≤ size (name file) →
   ∃ init c, name file = init +:+ String c "" ∧
     IblGenerator.getOutputFile ibl file = inr (File_child (IblGenerator.outputDir ibl) init)) ∧
  (size (name file) < 2 →
   IblGenerator.getOutputFile ibl file = inl StringIndexOutOfBoundsException).
Proof.
  intros Hdot. unfold IblGenerator.getOutputFile.
  rewrite (lastIndexOf_absent _ _ Hdot). change (-1 - 1) with (-2). split.
  - intros Hsz. destruct (string_snoc (name file)) as (init & c & Heq).
    { intros E. rewrite E in Hsz. unfold size in Hsz. cbn in Hsz. lia. }
    exists init, c. split; [done|]. rewrite Heq in Hsz |- *.
    rewrite size_app in Hsz. rewrite getAt_from_end; [done|lia|done|].
    unfold size in *. cbn in *. lia.
  - intros Hsz. by rewrite getAt_short by lia.
Qed.

(** C10: on an input name without a dot, the material and mesh mappers append
    their extension to the whole name, no dot between, while the IBL mapper
    returns a name of two characters or more without its last character: the
    base the IBL mapper keeps is never the base the other two keep. *)
Theorem C10_extensionless_policies_differ
    (material : MaterialCompiler.t) (ibl : IblGenerator.t) (mesh : MeshCompiler.t)
    (file : File) :
  contains (name file) dot = false → name file ≠ "" →
  MaterialCompiler.getOutputFile material file
    = inr (File_child (MaterialCompiler.outputDir material) (name file +:+ "filamat")) ∧
  MeshCompiler.getOutputFile mesh file
    = inr (File_child (MeshCompiler.outputDir mesh) (name file +:+ "filamesh")) ∧
  (2 ≤ size (name file) →
   ∃ init c, name file = init +:+ String c "" ∧ init ≠ name file ∧
     IblGenerator.getOutputFile ibl file = inr (File_child (IblGenerator.outputDir ibl) init)).
Proof.
  intros Hdot Hne.
  destruct (material_mesh_mappers_extensionless material mesh file Hdot Hne) as [-> ->].
  split_and!; [done..|]. intros Hsz.
  destruct (ibl_mapper_extensionless ibl file Hdot) as [Hibl _].
  destruct (Hibl Hsz) as (init & c & Heq & Hout).
  exists init, c. split_and!; [done| |done].
  intros E. apply (f_equal size) in Heq. rewrite <-E, size_app in Heq.
  unfold size in Heq. cbn in Heq. lia.
Qed.

(** The theorem at [mesh]: [meshfilamat], [meshfilamesh] and [mes]. *)
Lemma C10_witness :
  MaterialCompiler.getOutputFile material0 ["in"; "mesh"] = inr ["out"; "meshfilamat"] ∧
  MeshCompiler.getOutputFile
    {| MeshCompiler.filameshPath := ["tools"; "bin"; "filamesh"];
       MeshCompiler.inputFile := ["in"; "mesh"]; MeshCompiler.outputDir := ["out"] |}
    ["in"; "mesh"] = inr ["out"; "meshfilamesh"] ∧
  (2 ≤ size "mesh" →
   ∃ init c, "mesh" = init +:+ String c "" ∧ init ≠ "mesh" ∧
     IblGenerator.getOutputFile ibl0 ["in"; "mesh"] = inr (File_child ["out"] init)).
Proof.
  apply (C10_extensionless_policies_differ material0 ibl0
           {| MeshCompiler.filameshPath := ["tools"; "bin"; "filamesh"];
              MeshCompiler.inputFile := ["in"; "mesh"]; MeshCompiler.outputDir := ["out"] |}
           ["in"; "mesh"]).
  - reflexivity.
  - discriminate.
Defined.

(** ** Running statements *)

Lemma bind_run {A B} (m : M A) (k : A → M B) (w : World) :
  (m ≫= k) w = match m w with
               | (inl e, w') => (inl e, w')
               | (inr a, w') => k a w'
               end.
Proof. reflexivity. Qed.

Lemma forEach_cons {A} (x : A) (l : list A) (body : A → M unit) (w : World) :
  forEach (x :: l) body w = match body x w with
                            | (inl e, w') => (inl e, w')
                            | (inr _, w') => forEach l body w'
                            end.
Proof. reflexivity. Qed.

(** A loop runs its first stretch, then the rest from where that left off,
    unless the first stretch threw. *)
Lemma forEach_app {A} (l1 l2 : list A) (body : A → M unit) (w : World) :
  forEach (l1 ++ l2) body w = match forEach l1 body w with
                              | (inl e, w') => (inl e, w')
                              | (inr _, w') => forEach l2 body w'
                              end.
Proof.
  revert w. induction l1 as [|x l1 IH]; intros w; [done|].
  rewrite <-app_comm_cons, !forEach_cons.
  destruct (body x w) as [[e|[]] w']; [done|]. apply IH.
Qed.

(** A header written to a fresh stream and flushed is logged as it is. *)
Lemma flush_header (level : LogLevel) (header : string) (w : World) :
  LogOutputStream.flush (LogOutputStream.write (LogOutputStream.new level) header) w
    = (inr (LogOutputStream.new level),
       {| files := files w; trace := trace w ++ [EvLog level header] |}).
Proof. reflexivity. Qed.

(** ** Incremental runs *)

Lemma filter_none {A} (P : A → Prop) `{∀ x, Decision (P x)} (l : list A) :
  (∀ x, x ∈ l → ¬ P x) → filter P l = [].
Proof.
  induction l as [|x l IH]; [done|]. intros Hl.
  rewrite filter_cons_False by (apply Hl; left). apply IH. intros y Hy. apply Hl. by right.
Qed.

Lemma list_to_map_recorded (current : list (File * Z)) (snapshot : gmap File Z) :
  NoDup current.*1 →
  (∀ f fp, (f, fp) ∈ current → snapshot !! f = Some fp) →
  (∀ f, f ∈ dom snapshot → f ∈ current.*1) →
  list_to_map current = snapshot.
Proof.
  intros Hnd Hin Hdom. apply map_eq. intros f.
  destruct (snapshot !! f) as [fp|] eqn:Hf.
  - assert (f ∈ current.*1) as Hc by (apply Hdom, elem_of_dom; eauto).
    apply list_elem_of_fmap in Hc as [[f' fp'] [-> Hc]]. cbn in *.
    rewrite (Hin _ _ Hc) in Hf. simplify_eq.
    by apply elem_of_list_to_map_1.
  - apply not_elem_of_list_to_map_1. intros Hc.
    apply list_elem_of_fmap in Hc as [[f' fp'] [-> Hc]]. cbn in *.
    rewrite (Hin _ _ Hc) in Hf. done.
Qed.

(** With nothing out of date and nothing removed, [execute] does nothing. *)
Lemma Task_execute_empty_delta `{Platform} (task : Task) (w : World) :
  Task_execute task {| incremental := true; outOfDate_files := []; removed_files := [] |} w
    = (inr tt, w).
Proof. by destruct task. Qed.

Lemma incrementalInputs_unchanged (current : list (File * Z)) (snapshot : gmap File Z) :
  (∀ f fp, (f, fp) ∈ current → snapshot !! f = Some fp) →
  (∀ f, f ∈ dom snapshot → f ∈ current.*1) →
  Gradle.incrementalInputs (Some snapshot) current
    = {| incremental := true; outOfDate_files := []; removed_files := [] |}.
Proof.
  intros Hin Hdom. unfold Gradle.incrementalInputs. f_equal.
  - rewrite filter_none; [done|]. intros [f fp] Hc. cbn. rewrite (Hin _ _ Hc). naive_solver.
  - apply filter_none. intros f Hf%elem_of_elements. naive_solver.
Qed.

(** C7: when every current input has the fingerprint the previous snapshot
    recorded and no input of the snapshot is gone, the run returns normally
    and leaves the world as it was (no process is launched, nothing is
    deleted or logged) and the snapshot is the previous one; hence a second
    run right after a run that succeeded, on the same inputs, launches
    nothing and records the same snapshot. *)
Theorem C7_empty_delta_changes_nothing `{Platform} (task : Task) (current : list (File * Z)) :
  NoDup current.*1 →
  (∀ (snapshot : gmap File Z) (w : World),
     (∀ f fp, (f, fp) ∈ current → snapshot !! f = Some fp) →
     (∀ f, f ∈ dom snapshot → f ∈ current.*1) →
     Gradle.run (Task_execute task) (Some snapshot) current w = (inr tt, Some snapshot, w)) ∧
  (∀ (previous : option (gmap File Z)) (w w1 : World) (snapshot : gmap File Z),
     Gradle.run (Task_execute task) previous current w = (inr tt, Some snapshot, w1) →
     Gradle.run (Task_execute task) (Some snapshot) current w1 = (inr tt, Some snapshot, w1)).
Proof.
  intros Hnd.
  assert (∀ (snapshot : gmap File Z) (w : World),
     (∀ f fp, (f, fp) ∈ current → snapshot !! f = Some fp) →
     (∀ f, f ∈ dom snapshot → f ∈ current.*1) →
     Gradle.run (Task_execute task) (Some snapshot) current w = (inr tt, Some snapshot, w))
    as Hskip.
  { intros snapshot w Hin Hdom. unfold Gradle.run.
    rewrite incrementalInputs_unchanged, Task_execute_empty_delta by done.
    by rewrite (list_to_map_recorded current snapshot). }
  split; [done|].
  intros previous w w1 snapshot Hrun. unfold Gradle.run in Hrun.
  destruct (Task_execute task _ w) as [[e|[]] w']; simplify_eq.
  apply Hskip.
  - intros f fp Hc. by apply elem_of_list_to_map_1.
  - intros f [fp Hf]%elem_of_dom. apply elem_of_list_to_map_2 in Hf.
    apply list_elem_of_fmap. by exists (f, fp).
Qed.

(** The theorem on one material whose fingerprint is the recorded one. *)
Lemma C7_witness :
  @Gradle.run (@Task_execute always_ok (compileMaterials material0))
    (Some {[ ["in"; "good.mat"] := 2 ]}) [(["in"; "good.mat"], 2)] world0
  = (inr tt, Some {[ ["in"; "good.mat"] := 2 ]}, world0).
Proof.
  refine (proj1 (@C7_empty_delta_changes_nothing always_ok (compileMaterials material0)
                   [(["in"; "good.mat"], 2)] _) _ world0 _ _).
  - repeat constructor. intros Hin. inversion Hin.
  - intros f fp Hin. inversion Hin as [|? ? ? Hnil]; [reflexivity|inversion Hnil].
  - intros f Hin. apply elem_of_dom in Hin as [fp Hin].
    apply lookup_singleton_Some in Hin as [<- _]. left.
Defined.

(** ** Include patterns *)

Lemma glob_list_star (p s : list ascii) :
  glob_list ("*"%char :: p) s
    = glob_list p s || match s with [] => false | _ :: s' => glob_list ("*"%char :: p) s' end.
Proof. by destruct s. Qed.

Lemma glob_list_literal (p s : list ascii) :
  literal p → glob_list p s = true ↔ s = p.
Proof.
  intros Hp. revert s. induction Hp as [|c p [Hstar Hq] Hp IH]; intros s.
  - destruct s; cbn; naive_solver.
  - cbn [glob_list]. rewrite Hstar. destruct s as [|d s]; [naive_solver|].
    rewrite Hq. cbn [orb]. rewrite andb_true_iff, Ascii.eqb_eq, IH. naive_solver.
Qed.

(** A star before a literal matches the names that end with the literal. *)
Lemma glob_list_star_literal (p s : list ascii) :
  literal p → glob_list ("*"%char :: p) s = true ↔ ∃ b, s = b ++ p.
Proof.
  intros Hp. induction s as [|d s IH]; rewrite glob_list_star, orb_true_iff, glob_list_literal by done.
  - split; [intros [<-|?]; [by exists []|done]|]. intros [b Hb].
    left. symmetry in Hb. by apply app_eq_nil in Hb as [_ ->].
  - rewrite IH. split.
    + intros [<-|[b ->]]; [by exists []|]. by exists (d :: b).
    + intros [[|c b] Hb]; [left; by rewrite Hb|]. right. exists b. by simplify_eq/=.
Qed.

Lemma list_ascii_of_string_app (a b : string) :
  list_ascii_of_string (a +:+ b) = list_ascii_of_string a ++ list_ascii_of_string b.
Proof. induction a as [|c a IH]; [done|]. rewrite append_String. cbn. by rewrite IH. Qed.

Lemma glob_star_suffix (suffix n : string) :
  literal (list_ascii_of_string suffix) →
  glob (String "*" suffix) n = true ↔ ∃ b, n = b +:+ suffix.
Proof.
  intros Hlit. unfold glob. cbn [list_ascii_of_string].
  rewrite glob_list_star_literal by done. split.
  - intros [b Hb]. exists (string_of_list_ascii b).
    rewrite <-(string_of_list_ascii_of_string n), Hb.
    rewrite <-(string_of_list_ascii_of_string (_ +:+ _)), list_ascii_of_string_app.
    by rewrite list_ascii_of_string_of_list_ascii.
  - intros [b ->]. exists (list_ascii_of_string b). apply list_ascii_of_string_app.
Qed.

Lemma glob_star (n : string) : glob "*" n = true.
Proof.
  unfold glob. cbn [list_ascii_of_string].
  induction (list_ascii_of_string n) as [|c s IH]; [done|].
  rewrite glob_list_star, IH. apply orb_true_r.
Qed.

Lemma relativePath_child (dir f : File) (rel : list string) :
  relativePath dir f = Some rel ↔ f = dir ++ rel.
Proof.
  revert f. induction dir as [|d dir IH]; intros f; cbn; [naive_solver|].
  destruct f as [|s f]; [naive_solver|]. case_bool_decide; [|naive_solver].
  rewrite IH. naive_solver.
Qed.

(** The tree holds the files directly in the directory whose name matches. *)
Lemma elem_of_fileTree_matching (dir : File) (pattern : string) (fs : gset File) (f : File) :
  f ∈ fileTree_matching dir pattern fs
  ↔ f ∈ fs ∧ ∃ n, f = File_child dir n ∧ glob pattern n = true.
Proof.
  unfold fileTree_matching, matching, File_child. rewrite elem_of_filter.
  destruct (relativePath dir f) as [rel|] eqn:Hrel.
  - apply relativePath_child in Hrel as ->. destruct rel as [|n [|??]].
    + split; [naive_solver|]. intros [? (n & Heq & _)]. by apply app_inv_head in Heq.
    + split; [naive_solver|]. intros [? (n' & Heq & ?)]. by apply app_inv_head in Heq as [= <-].
    + split; [naive_solver|]. intros [? (n' & Heq & ?)]. by apply app_inv_head in Heq.
  - split; [naive_solver|]. intros [? (n & -> & ?)].
    by rewrite (proj2 (relativePath_child dir (dir ++ [n]) [n])) in Hrel.
Qed.

(** ** Full rebuild *)

Lemma bind_ret_unit (m : M unit) (w : World) : (m ;; mret tt) w = m w.
Proof. rewrite bind_run. by destruct (m w) as [[e|[]] w']. Qed.

Lemma execute_full_rebuild (dir : File) (pattern : string) (process remove : File → M unit)
    (current : list (File * Z)) (w : World) :
  let inputs := Gradle.incrementalInputs None current in
  ((if negb (incremental inputs)
    then project_delete (fileTree_matching dir pattern)
    else mret tt) ;;
   outOfDate inputs process ;;
   removed inputs remove) w
  = forEach current.*1 process
      {| files := files w ∖ fileTree_matching dir pattern (files w);
         trace := trace w ++ ((λ f, EvDelete f true)
                                <$> elements (fileTree_matching dir pattern (files w))) |}.
Proof.
  cbn. rewrite bind_run. unfold project_delete at 1.
  unfold outOfDate, removed. cbn [outOfDate_files removed_files forEach].
  apply bind_ret_unit.
Qed.

Lemma literal_filamat : literal (list_ascii_of_string ".filamat").
Proof. repeat constructor. Qed.

Lemma literal_filamesh : literal (list_ascii_of_string ".filamesh").
Proof. repeat constructor. Qed.

Lemma Task_execute_eq `{Platform} (task : Task) (inputs : IncrementalTaskInputs) :
  Task_execute task inputs
    = (Task_clean task inputs ;;
       outOfDate inputs (Task_process task) ;;
       removed inputs (Task_remove task)).
Proof. by destruct task. Qed.

Lemma launched_app (file : File) (tr1 tr2 : list Event) :
  launched file (tr1 ++ tr2) = launched file tr1 || launched file tr2.
Proof. apply existsb_app. Qed.

(** A launch that returned has started and exited with zero. *)
Lemma project_exec_returned `{Platform} (executable : File) (args : list Arg) (w w' : World) :
  project_exec executable args w = (inr tt, w') →
  trace w' = trace w ++ [EvExec (absolutePath executable) args 0].
Proof.
  unfold project_exec. case_bool_decide; [|done]. cbn zeta.
  destruct (Z.eqb_spec (process (absolutePath executable) args (files w)).1 0) as [->|]; [|done].
  by intros [= <-].
Qed.

(** The closure of a task that returned on an input has launched the tool
    on it. *)
Lemma Task_process_launched `{Platform} (task : Task) (file : File) (w w' : World) :
  Task_process task file w = (inr tt, w') →
  ∃ events, trace w' = trace w ++ events ∧ launched file events = true.
Proof.
  destruct task as [material|ibl|mesh]; cbn [Task_process].
  - unfold MaterialCompiler.compile. rewrite bind_run.
    cbv zeta. rewrite flush_header. cbv beta iota. rewrite bind_run.
    destruct (MaterialCompiler.getOutputFile material file) as [e|out]; [done|].
    cbn [lift]. unfold mret at 1, M_ret at 1.
    intros ->%project_exec_returned. cbn [trace]. eexists.
    split; [by rewrite <-(assoc_L (++))|]. cbn.
    rewrite bool_decide_eq_true_2; [done|]. set_solver.
  - unfold IblGenerator.generate. rewrite bind_run.
    cbv zeta. rewrite flush_header. cbv beta iota. rewrite bind_run.
    destruct (project_exec _ _ _) as [[e|[]] w1] eqn:Hfirst; [done|].
    apply project_exec_returned in Hfirst. intros Hsecond%project_exec_returned.
    rewrite Hsecond, Hfirst. cbn [trace]. eexists.
    split; [by rewrite <-!(assoc_L (++))|]. cbn.
    rewrite bool_decide_eq_true_2; [done|]. set_solver.
  - unfold MeshCompiler.compile. rewrite bind_run.
    cbv zeta. rewrite flush_header. cbv beta iota. rewrite bind_run.
    destruct (MeshCompiler.getOutputFile mesh file) as [e|out]; [done|].
    cbn [lift]. unfold mret at 1, M_ret at 1.
    intros ->%project_exec_returned. cbn [trace]. eexists.
    split; [by rewrite <-(assoc_L (++))|]. cbn.
    rewrite bool_decide_eq_true_2; [done|]. set_solver.
Qed.

(** A loop over the out-of-date inputs that returned has launched the tool
    on each of them. *)
Lemma outOfDate_launched `{Platform} (task : Task) (l : list File) (w w' : World) :
  forEach l (Task_process task) w = (inr tt, w') →
  ∃ events, trace w' = trace w ++ events ∧ ∀ f, f ∈ l → launched f events = true.
Proof.
  revert w. induction l as [|x l IH]; intros w.
  - intros [= <-]. exists []. split; [by rewrite app_nil_r|]. intros f Hf. inversion Hf.
  - rewrite forEach_cons.
    destruct (Task_process task x w) as [[e|[]] w1] eqn:Hx; [done|]. intros Hrest.
    destruct (Task_process_launched task x w w1 Hx) as (ev1 & Htr1 & Hl1).
    destruct (IH w1 Hrest) as (ev2 & Htr2 & Hl2).
    exists (ev1 ++ ev2). split; [by rewrite Htr2, Htr1, <-(assoc_L (++))|].
    intros f [->|Hf]%elem_of_cons; rewrite launched_app.
    + by rewrite Hl1.
    + rewrite (Hl2 f Hf). apply orb_true_r.
Qed.

Lemma Task_full_rebuild `{Platform} (task : Task) (dir : File) (pattern : string)
    (stale_name : string → Prop) :
  (∀ inputs, Task_clean task inputs
             = if negb (incremental inputs)
               then project_delete (fileTree_matching dir pattern)
               else mret tt) →
  (∀ n, glob pattern n = true ↔ stale_name n) →
  full_rebuild task dir stale_name.
Proof.
  intros Hclean Hglob current w.
  exists (fileTree_matching dir pattern (files w)).
  assert (Task_execute task (Gradle.incrementalInputs None current) w
          = forEach current.*1 (Task_process task)
              {| files := files w ∖ fileTree_matching dir pattern (files w);
                 trace := trace w ++ ((λ f, EvDelete f true)
                                        <$> elements (fileTree_matching dir pattern (files w))) |})
    as Hrun.
  { rewrite Task_execute_eq, Hclean. apply execute_full_rebuild. }
  split_and!; [|done|].
  - intros f [Hf (n & Heq & Hn)]%elem_of_fileTree_matching.
    split; [done|]. exists n. split; [done|]. by apply Hglob.
  - intros w'. rewrite Hrun. intros (events & Htr & Hall)%outOfDate_launched.
    exists events. split; [|done]. rewrite Htr. cbn [trace]. by rewrite <-(assoc_L (++)).
Qed.

(** In a run without previous snapshot every task first deletes files of its
    output directory, none but files directly in it that its pattern matches
    ([*.filamat]: the names ending in [.filamat]; [*]: every name;
    [*.filamesh]: the names ending in [.filamesh]), and only then processes
    the inputs, all of them: every current input is out of date. *)
Lemma no_snapshot_cleans_then_processes_all `{Platform}
    (material : MaterialCompiler.t) (ibl : IblGenerator.t) (mesh : MeshCompiler.t) :
  full_rebuild (compileMaterials material)
    (MaterialCompiler.outputDir material) (λ n, ∃ b, n = b +:+ ".filamat") ∧
  full_rebuild (generateIbl ibl)
    (IblGenerator.outputDir ibl) (λ n, True) ∧
  full_rebuild (compileMesh mesh)
    (MeshCompiler.outputDir mesh) (λ n, ∃ b, n = b +:+ ".filamesh").
Proof.
  split_and!.
  - apply (Task_full_rebuild _ _ "*.filamat"); [done|].
    intros n. apply (glob_star_suffix ".filamat"), literal_filamat.
  - apply (Task_full_rebuild _ _ "*"); [done|].
    intros n. by rewrite glob_star.
  - apply (Task_full_rebuild _ _ "*.filamesh"); [done|].
    intros n. apply (glob_star_suffix ".filamesh"), literal_filamesh.
Qed.

(** C4: a run of the IBL task without previous snapshot, over an output
    directory that cmgen populated before. The pattern [*] of the deletion
    matches no path of two segments, such as [env/m0_px.rgbm]: the run
    deletes nothing, processes its input and returns with the artefact of
    the earlier run still in place. *)
Theorem C4_ibl_full_rebuild_leaves_artefacts :
  Gradle.incrementalInputs None [(["in"; "env.hdr"], 1)]
    = {| incremental := false; outOfDate_files := [["in"; "env.hdr"]]; removed_files := [] |} ∧
  ["out"; "env"; "m0_px.rgbm"] ∈ files world_ibl ∧
  matching ["out"] "*" ["out"; "env"; "m0_px.rgbm"] = false ∧
  @Gradle.run (@IblGenerator.execute always_ok ibl0) None [(["in"; "env.hdr"], 1)] world_ibl
    = (inr tt, Some {[ ["in"; "env.hdr"] := 1 ]},
       {| files := files world_ibl;
          trace := [EvLog LIFECYCLE ("Generating IBL /in/env.hdr" +:+ newline);
                    EvExec "/tools/bin/cmgen"
                      [AString "-x"; AFile ["out"]; AFile ["in"; "env.hdr"]] 0;
                    EvExec "/tools/bin/cmgen"
                      [AString "--format=rgbm"; AString "--extract-blur=0.08";
                       AString "--extract=/out"; AFile ["in"; "env.hdr"]] 0] |}).
Proof.
  split_and!; [reflexivity|by vm_compute|reflexivity|].
  vm_compute. reflexivity.
Qed.

(** ** Launches *)

Lemma launches_app (tr1 tr2 : list Event) : launches (tr1 ++ tr2) = launches tr1 ++ launches tr2.
Proof. apply omap_app. Qed.

(** A launch that starts and exits with zero returns, and leaves the files
    of the process behind. *)
Lemma project_exec_ok `{Platform} (executable : File) (args : list Arg) (w : World) :
  executable ∈ files w →
  (process (absolutePath executable) args (files w)).1 = 0 →
  project_exec executable args w
    = (inr tt, {| files := (process (absolutePath executable) args (files w)).2;
                  trace := trace w ++ [EvExec (absolutePath executable) args 0] |}).
Proof.
  intros Hexe Hzero. unfold project_exec.
  rewrite bool_decide_eq_true_2 by done. cbn zeta. by rewrite Hzero.
Qed.

(** A launch that starts and exits with another value throws, after the
    process has run. *)
Lemma project_exec_exit `{Platform} (executable : File) (args : list Arg) (w : World) :
  executable ∈ files w →
  (process (absolutePath executable) args (files w)).1 ≠ 0 →
  project_exec executable args w
    = (inl (ExecException_exit (absolutePath executable)
              (process (absolutePath executable) args (files w)).1),
       {| files := (process (absolutePath executable) args (files w)).2;
          trace := trace w ++ [EvExec (absolutePath executable) args
                                 (process (absolutePath executable) args (files w)).1] |}).
Proof.
  intros Hexe Hcode. unfold project_exec.
  rewrite bool_decide_eq_true_2 by done. cbn zeta.
  by destruct (Z.eqb_spec (process (absolutePath executable) args (files w)).1 0).
Qed.

(** A launch of a file that is not there throws at once. *)
Lemma project_exec_start `{Platform} (executable : File) (args : list Arg) (w : World) :
  executable ∉ files w →
  project_exec executable args w = (inl (ExecException_start (absolutePath executable)), w).
Proof. intros Hexe. unfold project_exec. by rewrite bool_decide_eq_false_2. Qed.

Section cmgen_returns.
Context `{Platform} (ibl : IblGenerator.t).

Let cmgen : string := absolutePath (IblGenerator.cmgenPath ibl).

(** cmgen exits with zero and does not remove itself. *)
Hypothesis cmgen_zero : ∀ args fs, (process cmgen args fs).1 = 0.
Hypothesis cmgen_stays :
  ∀ args fs, IblGenerator.cmgenPath ibl ∈ fs → IblGenerator.cmgenPath ibl ∈ (process cmgen args fs).2.

Lemma generate_launches_twice (file : File) (w : World) :
  IblGenerator.cmgenPath ibl ∈ files w →
  ∃ w', IblGenerator.generate ibl file w = (inr tt, w') ∧
        IblGenerator.cmgenPath ibl ∈ files w' ∧
        launches (trace w') = launches (trace w)
          ++ [(cmgen, cmgen_extract ibl file); (cmgen, cmgen_extract_blur ibl file)].
Proof.
  intros Hexe. unfold IblGenerator.generate.
  rewrite bind_run. cbv zeta. rewrite flush_header. cbv beta iota.
  rewrite bind_run, project_exec_ok by (done || apply cmgen_zero).
  rewrite project_exec_ok by (cbn; first [by apply cmgen_stays | apply cmgen_zero]).
  eexists. split; [done|]. cbn [files trace]. split.
  - by apply cmgen_stays, cmgen_stays.
  - by rewrite !launches_app, <-!(assoc_L (++)).
Qed.

Lemma outOfDate_generate_launches (files_out_of_date : list File) (w : World) :
  IblGenerator.cmgenPath ibl ∈ files w →
  ∃ w', forEach files_out_of_date (IblGenerator.generate ibl) w = (inr tt, w') ∧
        IblGenerator.cmgenPath ibl ∈ files w' ∧
        launches (trace w') = launches (trace w)
          ++ (files_out_of_date ≫=
                λ file, [(cmgen, cmgen_extract ibl file); (cmgen, cmgen_extract_blur ibl file)]).
Proof.
  revert w. induction files_out_of_date as [|file l IH]; intros w Hexe.
  - exists w. by rewrite app_nil_r.
  - destruct (generate_launches_twice file w Hexe) as (w1 & Hrun & Hexe1 & Htr1).
    destruct (IH w1 Hexe1) as (w' & Hrest & Hexe' & Htr').
    exists w'. rewrite forEach_cons, Hrun. split_and!; [done..|].
    rewrite Htr', Htr1. cbn. by rewrite <-(assoc_L (++)).
Qed.
End cmgen_returns.


(** ** A process that fails *)

Example run_with_bad_mat :
  @Gradle.run (@Task_execute (fails_on ["in"; "bad.mat"]) (compileMaterials material0))
     None [(["in"; "bad.mat"], 1); (["in"; "good.mat"], 2)] world0
  = (inl (ExecException_exit "/tools/bin/matc" 1), None,
     {| files := files world0;
        trace := [EvLog LIFECYCLE ("Compiling material /in/bad.mat" +:+ newline);
                  EvExec "/tools/bin/matc"
                    [AString "-O"; AString "-p"; AString "mobile"; AString "-o";
                     AFile ["out"; "bad.filamat"]; AFile ["in"; "bad.mat"]] 1] |}).
Proof. vm_compute. reflexivity. Qed.

(** C1, as stated, fails: matc exits with 1 on [bad.mat], the first of two
    new inputs, and [good.mat] is never compiled, nor is a snapshot recorded. *)
Lemma C1_counterexample :
  ¬ @partial_failure (fails_on ["in"; "bad.mat"]) (compileMaterials material0)
      None [(["in"; "bad.mat"], 1); (["in"; "good.mat"], 2)] world0 ["in"; "bad.mat"].
Proof.
  intros (e & snapshot & w' & Hrun & Hall & _).
  rewrite run_with_bad_mat in Hrun. injection Hrun as <- <- <-.
  specialize (Hall ["in"; "good.mat"]). cbn in Hall.
  discriminate Hall. right. left.
Qed.

(** What is thrown while an input is processed ends the run there: the
    inputs after it are not processed, no removal is made, and the host
    records no snapshot. *)
Lemma run_aborts `{Platform} (task : Task)
    (previous : option (gmap File Z)) (current : list (File * Z))
    (before after : list File) (bad : File) (e : Throwable) (w w1 w2 : World) :
  let inputs := Gradle.incrementalInputs previous current in
  outOfDate_files inputs = before ++ bad :: after →
  (Task_clean task inputs ;; forEach before (Task_process task)) w = (inr tt, w1) →
  Task_process task bad w1 = (inl e, w2) →
  Gradle.run (Task_execute task) previous current w = (inl e, None, w2).
Proof.
  intros inputs Hsplit Hbefore Hbad. unfold Gradle.run. fold inputs.
  rewrite Task_execute_eq, bind_run. rewrite bind_run in Hbefore.
  destruct (Task_clean task inputs w) as [[e0|[]] w0]; [done|].
  rewrite bind_run. unfold outOfDate. rewrite Hsplit, forEach_app, Hbefore.
  by rewrite forEach_cons, Hbad.
Qed.

(** Compiling a material for which matc exits with a value other than zero
    logs the header, launches matc and throws. *)
Lemma compile_exit `{Platform} (material : MaterialCompiler.t) (file out : File) (w : World) :
  let command := absolutePath (MaterialCompiler.matcPath material) in
  let args := [AString "-O"; AString "-p"; AString "mobile"; AString "-o"; AFile out; AFile file] in
  let r := process command args (files w) in
  MaterialCompiler.matcPath material ∈ files w →
  MaterialCompiler.getOutputFile material file = inr out →
  r.1 ≠ 0 →
  MaterialCompiler.compile material file w
    = (inl (ExecException_exit command r.1),
       {| files := r.2;
          trace := trace w ++ [EvLog LIFECYCLE
                                 ("Compiling material " +:+ absolutePath file +:+ newline);
                               EvExec command args r.1] |}).
Proof.
  intros command args r Hexe Hout Hcode. unfold MaterialCompiler.compile.
  rewrite bind_run. cbv zeta. rewrite flush_header. cbv beta iota.
  rewrite bind_run, Hout. cbn [lift]. unfold mret, M_ret at 1.
  rewrite project_exec_exit by done. cbn [files trace]. by rewrite <-(assoc_L (++)).
Qed.

(** C1, amended: when matc exits with a value other than zero for an
    out-of-date input, the run stops at that input. The inputs before it, in
    the order of the loop, have been processed; the world is left as the
    failed launch left it, so that no later input is processed and no output
    of a removed input is deleted; the outcome of the run is that failure,
    which names the command and the exit value; and no snapshot is recorded. *)
Theorem C1_tool_failure_aborts_run `{Platform} (material : MaterialCompiler.t)
    (previous : option (gmap File Z)) (current : list (File * Z))
    (before after : list File) (bad out : File) (w w1 : World) :
  let inputs := Gradle.incrementalInputs previous current in
  let command := absolutePath (MaterialCompiler.matcPath material) in
  let args := [AString "-O"; AString "-p"; AString "mobile"; AString "-o"; AFile out; AFile bad] in
  let r := process command args (files w1) in
  outOfDate_files inputs = before ++ bad :: after →
  (Task_clean (compileMaterials material) inputs ;;
   forEach before (MaterialCompiler.compile material)) w = (inr tt, w1) →
  MaterialCompiler.matcPath material ∈ files w1 →
  MaterialCompiler.getOutputFile material bad = inr out →
  r.1 ≠ 0 →
  Gradle.run (MaterialCompiler.execute material) previous current w
    = (inl (ExecException_exit command r.1), None,
       {| files := r.2;
          trace := trace w1 ++ [EvLog LIFECYCLE
                                  ("Compiling material " +:+ absolutePath bad +:+ newline);
                                EvExec command args r.1] |}).
Proof.
  intros inputs command args r Hsplit Hbefore Hexe Hout Hcode.
  apply (run_aborts (compileMaterials material) previous current before after bad _ w w1);
    [done..|].
  by apply compile_exit.
Qed.

(** The theorem on a machine where matc fails on [bad.mat], met after
    [good.mat] in a full rebuild that has [c.mat] of no concern. *)
Lemma C1_witness :
  @Gradle.run (@MaterialCompiler.execute (fails_on ["in"; "bad.mat"]) material0)
     None [(["in"; "good.mat"], 2); (["in"; "bad.mat"], 1); (["in"; "later.mat"], 3)] world0
  = (inl (ExecException_exit "/tools/bin/matc" 1), None,
     {| files := files world0;
        trace := [EvLog LIFECYCLE ("Compiling material /in/good.mat" +:+ newline);
                  EvExec "/tools/bin/matc"
                    [AString "-O"; AString "-p"; AString "mobile"; AString "-o";
                     AFile ["out"; "good.filamat"]; AFile ["in"; "good.mat"]] 0;
                  EvLog LIFECYCLE ("Compiling material /in/bad.mat" +:+ newline);
                  EvExec "/tools/bin/matc"
                    [AString "-O"; AString "-p"; AString "mobile"; AString "-o";
                     AFile ["out"; "bad.filamat"]; AFile ["in"; "bad.mat"]] 1] |}).
Proof.
  pose proof (@C1_tool_failure_aborts_run (fails_on ["in"; "bad.mat"]) material0
    None [(["in"; "good.mat"], 2); (["in"; "bad.mat"], 1); (["in"; "later.mat"], 3)]
    [["in"; "good.mat"]] [["in"; "later.mat"]] ["in"; "bad.mat"] ["out"; "bad.filamat"]
    world0
    {| files := files world0;
       trace := [EvLog LIFECYCLE ("Compiling material /in/good.mat" +:+ newline);
                 EvExec "/tools/bin/matc"
                   [AString "-O"; AString "-p"; AString "mobile"; AString "-o";
                    AFile ["out"; "good.filamat"]; AFile ["in"; "good.mat"]] 0] |}) as Hrun.
  cbv zeta in Hrun. apply Hrun.
  - reflexivity.
  - vm_compute. reflexivity.
  - vm_compute. reflexivity.
  - reflexivity.
  - vm_compute. discriminate.
Defined.

(** ** Removed inputs *)

(** The material and mesh mappers return on every name that is not empty. *)
Lemma material_mesh_mappers_total
    (material : MaterialCompiler.t) (mesh : MeshCompiler.t) (file : File) :
  name file ≠ "" →
  (∃ out, MaterialCompiler.getOutputFile material file = inr out) ∧
  (∃ out, MeshCompiler.getOutputFile mesh file = inr out).
Proof.
  intros Hne. destruct (contains (name file) dot) eqn:Hdot.
  - destruct (material_mesh_mappers_dotted material mesh file Hdot) as (b & e & _ & _ & -> & ->). eauto.
  - destruct (material_mesh_mappers_extensionless material mesh file Hdot Hne) as [-> ->]. eauto.
Qed.

(** Removing the output of an input returns normally whatever [File.delete]
    answered: the answer is recorded in the trace and dropped. *)
Lemma Task_remove_run (task : Task) (file out : File) (w : World) :
  Task_getOutputFile task file = inr out →
  Task_remove task file w
    = (inr tt,
       if bool_decide (out ∈ files w)
       then {| files := files w ∖ {[out]}; trace := trace w ++ [EvDelete out true] |}
       else {| files := files w; trace := trace w ++ [EvDelete out false] |}).
Proof.
  intros Hout.
  assert (Task_remove task file = (out ← lift (Task_getOutputFile task file);
                                   _ ← File_delete out; mret tt)) as ->
    by by destruct task.
  rewrite Hout, bind_run. cbn [lift]. unfold mret at 1, M_ret at 1.
  rewrite bind_run. unfold File_delete. by case_bool_decide.
Qed.

(** The loop over the removed inputs returns normally when the mapper does;
    it launches nothing, creates nothing, and adds one deletion answer per
    removed input to the trace. *)
Lemma removed_returns (task : Task) (files_removed : list File) (w : World) :
  (∀ f, f ∈ files_removed → ∃ out, Task_getOutputFile task f = inr out) →
  ∃ w' answers,
    forEach files_removed (Task_remove task) w = (inr tt, w') ∧
    files w' ⊆ files w ∧
    trace w' = trace w ++ answers ∧
    Forall2 (λ f e, ∃ out deleted, Task_getOutputFile task f = inr out
                                   ∧ e = EvDelete out deleted) files_removed answers.
Proof.
  revert w. induction files_removed as [|f l IH]; intros w Hmap.
  - exists w, []. by rewrite app_nil_r.
  - destruct (Hmap f) as [out Hout]; [left|].
    rewrite forEach_cons, (Task_remove_run task f out w Hout).
    match goal with |- context [forEach l _ ?w1] => destruct (IH w1) as (w' & answers & -> & Hsub & Htr & Hall) end.
    { intros f' Hf'. apply Hmap. by right. }
    exists w', (EvDelete out (bool_decide (out ∈ files w)) :: answers). split_and!; [done|..].
    + etrans; [done|]. case_bool_decide; set_solver.
    + rewrite Htr. case_bool_decide; cbn [trace]; by rewrite <-(assoc_L (++)).
    + constructor; eauto.
Qed.

(** When the mapper throws, so does the removal, having done nothing. *)
Lemma Task_remove_throw (task : Task) (file : File) (e : Throwable) (w : World) :
  Task_getOutputFile task file = inl e → Task_remove task file w = (inl e, w).
Proof.
  intros Hout.
  assert (Task_remove task file = (out ← lift (Task_getOutputFile task file);
                                   _ ← File_delete out; mret tt)) as ->
    by by destruct task.
  by rewrite Hout, bind_run.
Qed.

(** However it ends, the loop over the removed inputs creates no file and
    launches no process. *)
Lemma removed_only_deletes (task : Task) (files_removed : list File) (w : World) :
  ∃ outcome w',
    forEach files_removed (Task_remove task) w = (outcome, w') ∧
    files w' ⊆ files w ∧
    launches (trace w') = launches (trace w).
Proof.
  revert w. induction files_removed as [|f l IH]; intros w; [by exists (inr tt), w|].
  rewrite forEach_cons. destruct (Task_getOutputFile task f) as [e|out] eqn:Hout.
  - rewrite (Task_remove_throw task f e w Hout). by exists (inl e), w.
  - rewrite (Task_remove_run task f out w Hout).
    match goal with |- context [forEach l _ ?w1] =>
      destruct (IH w1) as (outcome & w' & -> & Hsub & Htr) end.
    exists outcome, w'. split_and!; [done|..].
    + etrans; [done|]. case_bool_decide; set_solver.
    + rewrite Htr. case_bool_decide; cbn [trace]; by rewrite launches_app, app_nil_r.
Qed.

Lemma ibl_removed_run `{Platform} :
  Task_execute (generateIbl ibl0)
    {| incremental := true; outOfDate_files := []; removed_files := [["in"; "env.hdr"]] |}
    world_ibl
  = (inr tt, {| files := files world_ibl; trace := [EvDelete ["out"; "env"] false] |}).
Proof.
  rewrite Task_execute_eq. unfold Task_clean, outOfDate, removed.
  cbn [incremental negb outOfDate_files removed_files forEach].
  rewrite bind_run. unfold mret at 1, M_ret at 1. rewrite bind_run.
  unfold mret at 1, M_ret at 1. rewrite bind_run.
  rewrite (Task_remove_run (generateIbl ibl0) ["in"; "env.hdr"] ["out"; "env"]) by reflexivity.
  rewrite bool_decide_eq_false_2 by by vm_compute.
  reflexivity.
Qed.

(** C5: the input [/in/env.hdr] of the IBL task is gone. The mapper gives its
    output, the directory [/out/env], which exists and holds an artefact;
    [File.delete] answers [false] on it and the run returns normally with
    the directory and its content still in place, the input no longer in
    the snapshot. *)
Theorem C5_ibl_removed_input_keeps_its_output `{Platform} :
  IblGenerator.getOutputFile ibl0 ["in"; "env.hdr"] = inr ["out"; "env"] ∧
  File_exists (files world_ibl) ["out"; "env"] = true ∧
  Gradle.incrementalInputs (Some {[ ["in"; "env.hdr"] := 1 ]}) []
    = {| incremental := true; outOfDate_files := []; removed_files := [["in"; "env.hdr"]] |} ∧
  Gradle.run (IblGenerator.execute ibl0) (Some {[ ["in"; "env.hdr"] := 1 ]}) [] world_ibl
    = (inr tt, Some ∅,
       {| files := files world_ibl; trace := [EvDelete ["out"; "env"] false] |}).
Proof.
  split_and!; [reflexivity|by vm_compute|by vm_compute|].
  unfold Gradle.run.
  replace (Gradle.incrementalInputs (Some {[ ["in"; "env.hdr"] := 1 ]}) [])
    with {| incremental := true; outOfDate_files := []; removed_files := [["in"; "env.hdr"]] |}
    by by vm_compute.
  change (IblGenerator.execute ibl0 ?i) with (Task_execute (generateIbl ibl0) i).
  by rewrite ibl_removed_run.
Qed.

(** The same with the input file of the task switched from [/in/env.hdr] to
    [/in/sky.hdr]: the new input is processed, the old one is reported
    removed, and its directory stays. *)
Example ibl_switched_input_run :
  Gradle.incrementalInputs (Some {[ ["in"; "env.hdr"] := 1 ]}) [(["in"; "sky.hdr"], 2)]
    = {| incremental := true; outOfDate_files := [["in"; "sky.hdr"]];
         removed_files := [["in"; "env.hdr"]] |} ∧
  @Gradle.run (@IblGenerator.execute always_ok ibl_sky)
     (Some {[ ["in"; "env.hdr"] := 1 ]}) [(["in"; "sky.hdr"], 2)] world_ibl
    = (inr tt, Some {[ ["in"; "sky.hdr"] := 2 ]},
       {| files := files world_ibl;
          trace := [EvLog LIFECYCLE ("Generating IBL /in/sky.hdr" +:+ newline);
                    EvExec "/tools/bin/cmgen"
                      [AString "-x"; AFile ["out"]; AFile ["in"; "sky.hdr"]] 0;
                    EvExec "/tools/bin/cmgen"
                      [AString "--format=rgbm"; AString "--extract-blur=0.08";
                       AString "--extract=/out"; AFile ["in"; "sky.hdr"]] 0;
                    EvDelete ["out"; "env"] false] |}).
Proof. split; vm_compute; reflexivity. Qed.

(** ** The launches of the IBL task *)

Lemma launches_deletes (deleted : list File) :
  launches ((λ f, EvDelete f true) <$> deleted) = [].
Proof. by induction deleted. Qed.

(** C6: as long as cmgen returns normally, a run of the IBL task launches
    cmgen exactly twice for every out-of-date input, in order: first with
    [-x <outputDir> <input>], then with [--format=rgbm --extract-blur=0.08
    --extract=<outputDir> <input>]; and it launches nothing else. *)
Theorem C6_ibl_launches_cmgen_twice_per_input `{Platform}
    (ibl : IblGenerator.t) (inputs : IncrementalTaskInputs) (w : World) :
  let cmgen := absolutePath (IblGenerator.cmgenPath ibl) in
  (∀ args fs, (process cmgen args fs).1 = 0) →
  (∀ args fs, IblGenerator.cmgenPath ibl ∈ fs →
              IblGenerator.cmgenPath ibl ∈ (process cmgen args fs).2) →
  IblGenerator.cmgenPath ibl ∈ files w →
  (∀ n, IblGenerator.cmgenPath ibl ≠ File_child (IblGenerator.outputDir ibl) n) →
  ∃ outcome w',
    IblGenerator.execute ibl inputs w = (outcome, w') ∧
    launches (trace w') = launches (trace w)
      ++ (outOfDate_files inputs ≫= λ file,
            [(cmgen, [AString "-x"; AFile (IblGenerator.outputDir ibl); AFile file]);
             (cmgen, [AString "--format=rgbm"; AString "--extract-blur=0.08";
                      AString ("--extract=" +:+ absolutePath (IblGenerator.outputDir ibl));
                      AFile file])]).
Proof.
  intros cmgen Hzero Hstays Hexe Hout.
  change (IblGenerator.execute ibl inputs) with (Task_execute (generateIbl ibl) inputs).
  rewrite Task_execute_eq, bind_run.
  assert (∃ wc, Task_clean (generateIbl ibl) inputs w = (inr tt, wc)
                ∧ IblGenerator.cmgenPath ibl ∈ files wc
                ∧ launches (trace wc) = launches (trace w)) as (wc & -> & Hexe_c & Htr_c).
  { unfold Task_clean. destruct (incremental inputs); cbn [negb]; [by exists w|].
    unfold project_delete. eexists. split; [done|]. cbn [files trace]. split.
    - apply elem_of_difference. split; [done|].
      intros (_ & n & Heq & _)%elem_of_fileTree_matching. by apply (Hout n).
    - by rewrite launches_app, launches_deletes, app_nil_r. }
  rewrite bind_run. unfold outOfDate. cbn [Task_process].
  destruct (outOfDate_generate_launches ibl Hzero Hstays (outOfDate_files inputs) wc Hexe_c)
    as (w1 & -> & _ & Htr1).
  unfold removed.
  destruct (removed_only_deletes (generateIbl ibl) (removed_files inputs) w1)
    as (outcome & w' & -> & _ & Htr').
  exists outcome, w'. split; [done|]. by rewrite Htr', Htr1, Htr_c.
Qed.

(** The theorem on a full rebuild of two environments, cmgen in place and
    returning zero. *)
Lemma C6_witness :
  ∃ outcome w',
    @IblGenerator.execute always_ok ibl0
      {| incremental := false;
         outOfDate_files := [["in"; "env.hdr"]; ["in"; "sky.hdr"]];
         removed_files := [] |} world_ibl = (outcome, w') ∧
    launches (trace w') =
      [("/tools/bin/cmgen", [AString "-x"; AFile ["out"]; AFile ["in"; "env.hdr"]]);
       ("/tools/bin/cmgen", [AString "--format=rgbm"; AString "--extract-blur=0.08";
                             AString "--extract=/out"; AFile ["in"; "env.hdr"]]);
       ("/tools/bin/cmgen", [AString "-x"; AFile ["out"]; AFile ["in"; "sky.hdr"]]);
       ("/tools/bin/cmgen", [AString "--format=rgbm"; AString "--extract-blur=0.08";
                             AString "--extract=/out"; AFile ["in"; "sky.hdr"]])].
Proof.
  apply (@C6_ibl_launches_cmgen_twice_per_input always_ok ibl0
           {| incremental := false;
              outOfDate_files := [["in"; "env.hdr"]; ["in"; "sky.hdr"]];
              removed_files := [] |} world_ibl).
  - reflexivity.
  - intros args fs Hin. exact Hin.
  - vm_compute. reflexivity.
  - intros n Heq. discriminate Heq.
Defined.

(** ** Failures and the outcome of a run *)

(** C9, as stated, fails: the populated directory [/out/env] cannot be
    deleted, and the run that tried returns normally. *)
Lemma C9_counterexample :
  ¬ @delete_failures_reported (fails_on ["in"; "bad.mat"]) (generateIbl ibl0)
      {| incremental := true; outOfDate_files := []; removed_files := [["in"; "env.hdr"]] |}
      world_ibl.
Proof.
  intros Hrep.
  destruct (Hrep _ _ ["out"; "env"] ibl_removed_run) as [e He]; [| |done].
  - cbn. left.
  - by vm_compute.
Qed.

(** C9, amended: what is thrown while an input is processed (by a tool that
    fails, for one) is the outcome of the run, which ends there; a deletion
    that fails is not reported: a run that has only removals to make returns
    normally whatever [File.delete] answered, each answer showing in the
    trace only. *)
Theorem C9_process_failure_reported_delete_failure_dropped `{Platform} (task : Task) :
  (∀ previous current before after bad e w w1 w2,
     let inputs := Gradle.incrementalInputs previous current in
     outOfDate_files inputs = before ++ bad :: after →
     (Task_clean task inputs ;; forEach before (Task_process task)) w = (inr tt, w1) →
     Task_process task bad w1 = (inl e, w2) →
     Gradle.run (Task_execute task) previous current w = (inl e, None, w2)) ∧
  (∀ inputs w,
     incremental inputs = true →
     outOfDate_files inputs = [] →
     (∀ f, f ∈ removed_files inputs → ∃ out, Task_getOutputFile task f = inr out) →
     ∃ w' answers,
       Task_execute task inputs w = (inr tt, w') ∧
       trace w' = trace w ++ answers ∧
       Forall2 (λ f e, ∃ out deleted, Task_getOutputFile task f = inr out
                                      ∧ e = EvDelete out deleted)
         (removed_files inputs) answers).
Proof.
  split.
  - intros. by eapply run_aborts.
  - intros inputs w Hinc Hood Hmap.
    destruct (removed_returns task (removed_files inputs) w Hmap)
      as (w' & answers & Hrun & _ & Htr & Hall).
    exists w', answers. split_and!; [|done..].
    rewrite Task_execute_eq. unfold Task_clean, outOfDate, removed.
    rewrite Hinc, Hood. cbn [negb forEach].
    rewrite bind_run. unfold mret at 1, M_ret at 1. rewrite bind_run.
    unfold mret at 1, M_ret at 1. done.
Qed.

(** The theorem on the two runs met above: matc failing on [bad.mat], and
    the directory of [env.hdr] that cannot be deleted. *)
Lemma C9_witness :
  @Gradle.run (@Task_execute (fails_on ["in"; "bad.mat"]) (compileMaterials material0))
     None [(["in"; "bad.mat"], 1); (["in"; "good.mat"], 2)] world0
  = (inl (ExecException_exit "/tools/bin/matc" 1), None,
     {| files := files world0;
        trace := [EvLog LIFECYCLE ("Compiling material /in/bad.mat" +:+ newline);
                  EvExec "/tools/bin/matc"
                    [AString "-O"; AString "-p"; AString "mobile"; AString "-o";
                     AFile ["out"; "bad.filamat"]; AFile ["in"; "bad.mat"]] 1] |}) ∧
  ∃ w' answers,
    @Task_execute always_ok (generateIbl ibl0)
      {| incremental := true; outOfDate_files := []; removed_files := [["in"; "env.hdr"]] |}
      world_ibl = (inr tt, w') ∧
    trace w' = trace world_ibl ++ answers ∧
    Forall2 (λ f e, ∃ out deleted, Task_getOutputFile (generateIbl ibl0) f = inr out
                                   ∧ e = EvDelete out deleted)
      [["in"; "env.hdr"]] answers.
Proof.
  split.
  - apply (proj1 (@C9_process_failure_reported_delete_failure_dropped
                    (fails_on ["in"; "bad.mat"]) (compileMaterials material0))
             None [(["in"; "bad.mat"], 1); (["in"; "good.mat"], 2)]
             [] [["in"; "good.mat"]] ["in"; "bad.mat"] _ world0 world0).
    + reflexivity.
    + vm_compute. reflexivity.
    + vm_compute. reflexivity.
  - apply (proj2 (@C9_process_failure_reported_delete_failure_dropped
                    always_ok (generateIbl ibl0))
             {| incremental := true; outOfDate_files := [];
                removed_files := [["in"; "env.hdr"]] |} world_ibl).
    + reflexivity.
    + reflexivity.
    + intros f Hin. inversion Hin as [|? ? ? Hnil]; [|inversion Hnil].
      exists ["out"; "env"]. reflexivity.
Defined.

(** ** A missing tool *)

Lemma Task_clean_run (task : Task) (inputs : IncrementalTaskInputs) (w : World) :
  ∃ wc, Task_clean task inputs w = (inr tt, wc) ∧ files wc ⊆ files w.
Proof.
  unfold Task_clean. destruct (incremental inputs); cbn [negb].
  - by exists w.
  - unfold project_delete. eexists. split; [done|]. cbn. set_solver.
Qed.

(** With nothing out of date a run launches no tool, hence returns normally
    whether the tool is there or not. *)
Lemma execute_nothing_out_of_date `{Platform} (task : Task)
    (inputs : IncrementalTaskInputs) (w : World) :
  outOfDate_files inputs = [] →
  (∀ f, f ∈ removed_files inputs → ∃ out, Task_getOutputFile task f = inr out) →
  ∃ w', Task_execute task inputs w = (inr tt, w').
Proof.
  intros Hood Hmap. destruct (Task_clean_run task inputs w) as (wc & Hclean & _).
  destruct (removed_returns task (removed_files inputs) wc Hmap) as (w' & ? & Hrun & _).
  exists w'. rewrite Task_execute_eq, bind_run, Hclean. unfold outOfDate, removed.
  rewrite Hood. cbn [forEach]. rewrite bind_run. by unfold mret at 1, M_ret at 1.
Qed.

(** Processing an input with a tool that is not there logs the header and
    throws when the launch is tried. *)
Lemma Task_process_start `{Platform} (task : Task) (file : File) (w : World) :
  Task_toolPath task ∉ files w →
  name file ≠ "" →
  ∃ header,
    Task_process task file w
      = (inl (ExecException_start (absolutePath (Task_toolPath task))),
         {| files := files w; trace := trace w ++ [EvLog LIFECYCLE header] |}).
Proof.
  intros Hexe Hne. destruct task as [material|ibl|mesh]; cbn [Task_process Task_toolPath] in *.
  - destruct (material_mesh_mappers_total material
                {| MeshCompiler.filameshPath := []; MeshCompiler.inputFile := [];
                   MeshCompiler.outputDir := [] |} file Hne) as [[out Hout] _].
    eexists. unfold MaterialCompiler.compile.
    rewrite bind_run. cbv zeta. rewrite flush_header. cbv beta iota.
    rewrite bind_run, Hout. cbn [lift]. unfold mret at 1, M_ret at 1.
    by rewrite project_exec_start.
  - eexists. unfold IblGenerator.generate.
    rewrite bind_run. cbv zeta. rewrite flush_header. cbv beta iota.
    by rewrite bind_run, project_exec_start.
  - destruct (material_mesh_mappers_total
                {| MaterialCompiler.matcPath := []; MaterialCompiler.inputDir := [];
                   MaterialCompiler.outputDir := [] |} mesh file Hne) as [_ [out Hout]].
    eexists. unfold MeshCompiler.compile.
    rewrite bind_run. cbv zeta. rewrite flush_header. cbv beta iota.
    rewrite bind_run, Hout. cbn [lift]. unfold mret at 1, M_ret at 1.
    by rewrite project_exec_start.
Qed.

(** C8, as stated, fails: off Windows with [matc.exe] alone in place, the
    check of [getBinaries] passes, the task is given [/tools/bin/matc], which
    does not exist, and a run that finds nothing out of date returns normally. *)
Lemma C8_counterexample :
  ¬ @missing_tool_is_fatal (fails_on ["in"; "bad.mat"]) ["tools"] ["in"] ["out"]
      {| incremental := true; outOfDate_files := []; removed_files := [] |} world_exe.
Proof.
  intros Hfatal.
  destruct (Hfatal [["tools"; "bin"; "matc.exe"]; ["tools"; "bin"; "matc"]]) as [e He].
  - by vm_compute.
  - by vm_compute.
  - discriminate He.
Qed.

(** C8, amended: when neither [bin/<name>.exe] nor [bin/<name>] exists,
    [getBinaries] throws, before any task is set up; when one of the two
    exists it returns both, of which a task takes the first on Windows and
    the second elsewhere, so that the path a task is given may be missing.
    With such a task, a run with nothing out of date returns normally, and a
    run with an out-of-date input throws when it tries the first launch,
    after the deletion of a full rebuild and the header of that input. *)
Theorem C8_missing_tool `{Platform} :
  (∀ name toolsPath fs,
     File_exists fs (toolsPath ++ ["bin"; name +:+ ".exe"]) = false →
     File_exists fs (toolsPath ++ ["bin"; name]) = false →
     ∃ msg, getBinaries name toolsPath fs = inl (StopActionException msg)) ∧
  (∀ name toolsPath fs,
     File_exists fs (toolsPath ++ ["bin"; name +:+ ".exe"]) = true
     ∨ File_exists fs (toolsPath ++ ["bin"; name]) = true →
     getBinaries name toolsPath fs
       = inr [toolsPath ++ ["bin"; name +:+ ".exe"]; toolsPath ++ ["bin"; name]]) ∧
  (∀ exe plain input output,
     MaterialCompiler.matcPath (MaterialCompiler.new [exe; plain] input output)
       = (if isWindows then exe else plain) ∧
     IblGenerator.cmgenPath (IblGenerator.new [exe; plain] input output)
       = (if isWindows then exe else plain) ∧
     MeshCompiler.filameshPath (MeshCompiler.new [exe; plain] input output)
       = (if isWindows then exe else plain)) ∧
  (∀ task inputs w,
     Task_toolPath task ∉ files w →
     (outOfDate_files inputs = [] →
      (∀ f, f ∈ removed_files inputs → ∃ out, Task_getOutputFile task f = inr out) →
      ∃ w', Task_execute task inputs w = (inr tt, w')) ∧
     (∀ file rest wc,
        outOfDate_files inputs = file :: rest →
        name file ≠ "" →
        Task_clean task inputs w = (inr tt, wc) →
        ∃ header,
          Task_execute task inputs w
            = (inl (ExecException_start (absolutePath (Task_toolPath task))),
               {| files := files wc; trace := trace wc ++ [EvLog LIFECYCLE header] |}))).
Proof.
  split_and!.
  - intros name toolsPath fs Hexe Hplain. eexists. unfold getBinaries.
    cbn [fmap list_fmap existsb]. by rewrite Hexe, Hplain.
  - intros name toolsPath fs Hone. unfold getBinaries.
    cbn [fmap list_fmap existsb]. by destruct Hone as [-> | ->]; rewrite ?orb_true_r.
  - intros exe plain input output. cbn. by destruct isWindows.
  - intros task inputs w Hexe. split.
    + apply execute_nothing_out_of_date.
    + intros file rest wc Hood Hne Hclean.
      destruct (Task_clean_run task inputs w) as (wc' & Hclean' & Hsub).
      rewrite Hclean in Hclean'. injection Hclean' as <-.
      destruct (Task_process_start task file wc) as [header Hstart]; [set_solver|done|].
      exists header. rewrite Task_execute_eq, bind_run, Hclean, bind_run.
      unfold outOfDate. by rewrite Hood, forEach_cons, Hstart.
Qed.

(** The theorem with no binary at all, and with [matc.exe] alone off Windows
    in a full rebuild that has [a.mat] to compile. *)
Lemma C8_witness :
  (∃ msg, getBinaries "matc" ["tools"] ∅ = inl (StopActionException msg)) ∧
  getBinaries "matc" ["tools"] (files world_exe)
    = inr [["tools"; "bin"; "matc.exe"]; ["tools"; "bin"; "matc"]] ∧
  ∃ header,
    @Task_execute always_ok
      (compileMaterials
         (@MaterialCompiler.new always_ok
            [["tools"; "bin"; "matc.exe"]; ["tools"; "bin"; "matc"]] ["in"] ["out"]))
      {| incremental := false; outOfDate_files := [["in"; "a.mat"]]; removed_files := [] |}
      world_exe
    = (inl (ExecException_start "/tools/bin/matc"),
       {| files := {[ ["tools"; "bin"; "matc.exe"] ]};
          trace := [EvDelete ["out"; "old.filamat"] true] ++ [EvLog LIFECYCLE header] |}).
Proof.
  split_and!.
  - apply (proj1 (@C8_missing_tool always_ok) "matc" ["tools"] ∅); vm_compute; reflexivity.
  - apply (proj1 (proj2 (@C8_missing_tool always_ok)) "matc" ["tools"] (files world_exe)).
    left. vm_compute. reflexivity.
  - refine (proj2 (proj2 (proj2 (proj2 (@C8_missing_tool always_ok)))
              (compileMaterials
                 (@MaterialCompiler.new always_ok
                    [["tools"; "bin"; "matc.exe"]; ["tools"; "bin"; "matc"]] ["in"] ["out"]))
              {| incremental := false; outOfDate_files := [["in"; "a.mat"]];
                 removed_files := [] |}
              world_exe _)
              ["in"; "a.mat"] []
              {| files := {[ ["tools"; "bin"; "matc.exe"] ]};
                 trace := [EvDelete ["out"; "old.filamat"] true] |} _ _ _).
    + vm_compute. intros Hin. discriminate Hin.
    + reflexivity.
    + discriminate.
    + vm_compute. reflexivity.
Defined.

(** * Further properties *)

(** ** More on the output mappers *)

Lemma contains_app (a b : string) (c : ascii) :
  contains (a +:+ b) c = contains a c || contains b c.
Proof.
  induction a as [|d a IH]; [done|].
  rewrite append_String. cbn [contains]. by rewrite IH, orb_assoc.
Qed.

(** The last occurrence sits where the text splits before a tail free of the
    character. *)
Lemma lastIndexOf_app (base ext : string) (c : ascii) :
  contains ext c = false → lastIndexOf (base +:+ String c ext) c = size base.
Proof.
  intros Hext. induction base as [|d base IH].
  - rewrite append_empty. cbn [lastIndexOf]. rewrite (lastIndexOf_absent _ _ Hext).
    cbn. by rewrite Ascii.eqb_refl.
  - rewrite append_String. cbn [lastIndexOf]. rewrite IH, size_String.
    destruct (Z.leb_spec 0 (size base)); [done|]. pose proof (size_nonneg base). lia.
Qed.

Lemma append_cancel_r (a b s : string) : a +:+ s = b +:+ s → a = b.
Proof.
  revert b. induction a as [|c a IH]; intros [|d b] Heq.
  - done.
  - apply (f_equal size) in Heq. rewrite append_empty, size_app, size_String in Heq.
    pose proof (size_nonneg b). lia.
  - apply (f_equal size) in Heq. rewrite append_empty, size_app, size_String in Heq.
    pose proof (size_nonneg a). lia.
  - rewrite !append_String in Heq. injection Heq as -> Heq. f_equal. by apply IH.
Qed.

Lemma File_child_inj (dir : File) (n1 n2 : string) :
  File_child dir n1 = File_child dir n2 → n1 = n2.
Proof. unfold File_child. intros Heq%app_inv_head. by injection Heq. Qed.

(** X1: on a name with a dot and something before its last dot, the IBL
    mapper returns the directory named as what stands before that dot. *)
Theorem X1_ibl_mapper_strips_extension (ibl : IblGenerator.t) (dir : File)
    (base ext : string) :
  base ≠ "" → contains ext dot = false →
  IblGenerator.getOutputFile ibl (File_child dir (base +:+ "." +:+ ext))
    = inr (File_child (IblGenerator.outputDir ibl) base).
Proof.
  intros Hbase Hext. unfold IblGenerator.getOutputFile. rewrite name_File_child.
  change (base +:+ "." +:+ ext) with (base +:+ String dot ext).
  rewrite (lastIndexOf_app base ext dot Hext).
  rewrite getAt_prefix; [done..|]. apply size_pos in Hbase. lia.
Qed.

Lemma X1_witness :
  IblGenerator.getOutputFile ibl0 (File_child ["in"] ("sky.v2" +:+ "." +:+ "hdr"))
    = inr (File_child ["out"] "sky.v2").
Proof. apply (X1_ibl_mapper_strips_extension ibl0 ["in"] "sky.v2" "hdr"); done. Defined.

(** X2: on a name whose only dot is its first character, the IBL mapper
    strips nothing: the subscript turns into [0..-1] and the output carries
    the whole name, dot and extension. *)
Theorem X2_ibl_mapper_keeps_leading_dot_name (ibl : IblGenerator.t) (dir : File)
    (ext : string) :
  contains ext dot = false →
  IblGenerator.getOutputFile ibl (File_child dir ("." +:+ ext))
    = inr (File_child (IblGenerator.outputDir ibl) ("." +:+ ext)).
Proof.
  intros Hext. unfold IblGenerator.getOutputFile. rewrite name_File_child.
  change ("." +:+ ext) with ("" +:+ String dot ext) at 1 2.
  rewrite (lastIndexOf_app "" ext dot Hext). change (size "" - 1) with (-1).
  by rewrite getAt_all.
Qed.

Lemma X2_witness :
  IblGenerator.getOutputFile ibl0 (File_child ["in"] ("." +:+ "hdr"))
    = inr (File_child ["out"] ("." +:+ "hdr")).
Proof. apply (X2_ibl_mapper_keeps_leading_dot_name ibl0 ["in"] "hdr"). done. Defined.

Lemma material_mapper_dotted (material : MaterialCompiler.t) (dir : File) (base ext : string) :
  contains ext dot = false →
  MaterialCompiler.getOutputFile material (File_child dir (base +:+ "." +:+ ext))
    = inr (File_child (MaterialCompiler.outputDir material) (base +:+ ".filamat")).
Proof.
  intros Hext. unfold MaterialCompiler.getOutputFile. rewrite name_File_child.
  change (base +:+ "." +:+ ext) with (base +:+ String dot ext).
  by rewrite (getAt_through_last_dot base ext Hext), append_assoc.
Qed.

Lemma mesh_mapper_dotted (mesh : MeshCompiler.t) (dir : File) (base ext : string) :
  contains ext dot = false →
  MeshCompiler.getOutputFile mesh (File_child dir (base +:+ "." +:+ ext))
    = inr (File_child (MeshCompiler.outputDir mesh) (base +:+ ".filamesh")).
Proof.
  intros Hext. unfold MeshCompiler.getOutputFile. rewrite name_File_child.
  change (base +:+ "." +:+ ext) with (base +:+ String dot ext).
  by rewrite (getAt_through_last_dot base ext Hext), append_assoc.
Qed.

(** X3: the material and mesh mappers look at nothing but what stands before
    the last dot of the name: two inputs, in whatever directories and with
    whatever extensions, get the same output exactly when they agree on
    that. *)
Theorem X3_outputs_collide_iff_same_base
    (material : MaterialCompiler.t) (mesh : MeshCompiler.t)
    (dir1 dir2 : File) (base1 ext1 base2 ext2 : string) :
  contains ext1 dot = false → contains ext2 dot = false →
  (MaterialCompiler.getOutputFile material (File_child dir1 (base1 +:+ "." +:+ ext1))
     = MaterialCompiler.getOutputFile material (File_child dir2 (base2 +:+ "." +:+ ext2))
   ↔ base1 = base2) ∧
  (MeshCompiler.getOutputFile mesh (File_child dir1 (base1 +:+ "." +:+ ext1))
     = MeshCompiler.getOutputFile mesh (File_child dir2 (base2 +:+ "." +:+ ext2))
   ↔ base1 = base2).
Proof.
  intros Hext1 Hext2.
  rewrite !material_mapper_dotted, !mesh_mapper_dotted by done.
  split; (split; [|by intros ->]); intros [= Heq%File_child_inj];
    by apply append_cancel_r in Heq.
Qed.

Lemma X3_witness :
  (MaterialCompiler.getOutputFile material0 (File_child ["in"; "a"] ("lit" +:+ "." +:+ "mat"))
     = MaterialCompiler.getOutputFile material0 (File_child ["in"; "b"] ("lit" +:+ "." +:+ "txt"))
   ↔ "lit" = "lit") ∧
  (MeshCompiler.getOutputFile mesh0 (File_child ["in"; "a"] ("lit" +:+ "." +:+ "mat"))
     = MeshCompiler.getOutputFile mesh0 (File_child ["in"; "b"] ("lit" +:+ "." +:+ "txt"))
   ↔ "lit" = "lit").
Proof.
  apply (X3_outputs_collide_iff_same_base material0 mesh0 ["in"; "a"] ["in"; "b"]
           "lit" "mat" "lit" "txt"); done.
Defined.

(** ** The mappers and the patterns of the full rebuild *)

Lemma matching_child (dir : File) (pattern n : string) :
  matching dir pattern (File_child dir n) = glob pattern n.
Proof.
  unfold matching, File_child.
  by rewrite (proj2 (relativePath_child dir (dir ++ [n]) [n]) eq_refl).
Qed.

(** With the extension glued to a name that has no dot, no dot separates
    them, and the pattern [*.<extension>] does not match. *)
Lemma glob_glued (n suffix extension : string) :
  literal (list_ascii_of_string suffix) →
  suffix = "." +:+ extension →
  contains n dot = false →
  glob (String "*" suffix) (n +:+ extension) = false.
Proof.
  intros Hlit -> Hdot. apply not_true_is_false. intros Hglob.
  apply (glob_star_suffix _ _ Hlit) in Hglob as [b Heq].
  rewrite <-append_assoc in Heq. apply append_cancel_r in Heq. subst n.
  rewrite contains_app in Hdot. cbn in Hdot. by rewrite orb_true_r in Hdot.
Qed.

(** X4: the output the material mapper gives is one the full rebuild of the
    task would delete, [*.filamat] matching it, exactly when the name of the
    input has a dot; the output of an input without extension is out of the
    reach of the pattern. The same holds of the mesh mapper and [*.filamesh]. *)
Theorem X4_clean_pattern_matches_outputs_of_dotted_inputs_only
    (material : MaterialCompiler.t) (mesh : MeshCompiler.t) (file out : File) :
  (MaterialCompiler.getOutputFile material file = inr out →
   (matching (MaterialCompiler.outputDir material) "*.filamat" out = true
    ↔ contains (name file) dot = true)) ∧
  (MeshCompiler.getOutputFile mesh file = inr out →
   (matching (MeshCompiler.outputDir mesh) "*.filamesh" out = true
    ↔ contains (name file) dot = true)).
Proof.
  assert (name file = "" →
          MaterialCompiler.getOutputFile material file = inl StringIndexOutOfBoundsException
          ∧ MeshCompiler.getOutputFile mesh file = inl StringIndexOutOfBoundsException)
    as Hempty.
  { intros Hn. unfold MaterialCompiler.getOutputFile, MeshCompiler.getOutputFile.
    by rewrite Hn. }
  destruct (contains (name file) dot) eqn:Hdot.
  - destruct (material_mesh_mappers_dotted material mesh file Hdot)
      as (base & ext & _ & _ & -> & ->).
    split; intros [= <-]; rewrite matching_child; (split; [done|intros _]).
    + apply (glob_star_suffix ".filamat" _ literal_filamat). by exists base.
    + apply (glob_star_suffix ".filamesh" _ literal_filamesh). by exists base.
  - destruct (decide (name file = "")) as [Hn|Hn].
    { destruct (Hempty Hn) as [-> ->]. by split. }
    destruct (material_mesh_mappers_extensionless material mesh file Hdot Hn) as [-> ->].
    split; intros [= <-]; rewrite matching_child.
    + by rewrite (glob_glued (name file) ".filamat" "filamat" literal_filamat eq_refl Hdot).
    + by rewrite (glob_glued (name file) ".filamesh" "filamesh" literal_filamesh eq_refl Hdot).
Qed.

Lemma X4_witness :
  (matching ["out"] "*.filamat" ["out"; "meshfilamat"] = true
   ↔ contains (name ["in"; "mesh"]) dot = true) ∧
  (matching ["out"] "*.filamat" ["out"; "lit.filamat"] = true
   ↔ contains (name ["in"; "lit.mat"]) dot = true).
Proof.
  split.
  - apply (proj1 (X4_clean_pattern_matches_outputs_of_dotted_inputs_only
                    material0 mesh0 ["in"; "mesh"] ["out"; "meshfilamat"])).
    reflexivity.
  - apply (proj1 (X4_clean_pattern_matches_outputs_of_dotted_inputs_only
                    material0 mesh0 ["in"; "lit.mat"] ["out"; "lit.filamat"])).
    reflexivity.
Defined.

(** ** What a run adds to the trace *)

Lemma emits_mret {A} (P : Event → Prop) (a : A) : emits P (mret a : M A).
Proof. intros w. exists []. by rewrite app_nil_r. Qed.

Lemma emits_lift {A} (P : Event → Prop) (r : Exc A) : emits P (lift r).
Proof. intros w. exists []. rewrite app_nil_r. by destruct r. Qed.

Lemma emits_bind {A B} (P : Event → Prop) (m : M A) (k : A → M B) :
  emits P m → (∀ a, emits P (k a)) → emits P (m ≫= k).
Proof.
  intros Hm Hk w. rewrite bind_run. destruct (Hm w) as (ev1 & Htr1 & HP1).
  destruct (m w) as [[e|a] w1]; [by exists ev1|].
  destruct (Hk a w1) as (ev2 & Htr2 & HP2). exists (ev1 ++ ev2).
  cbn [snd] in Htr1. rewrite Htr2, Htr1, <-(assoc_L (++)). split; [done|].
  by apply Forall_app.
Qed.

Lemma emits_forEach {A} (P : Event → Prop) (l : list A) (body : A → M unit) :
  (∀ x, x ∈ l → emits P (body x)) → emits P (forEach l body).
Proof.
  induction l as [|x l IH]; intros Hbody; [apply emits_mret|].
  cbn [forEach]. apply emits_bind; [apply Hbody; left|].
  intros _. apply IH. intros y Hy. apply Hbody. by right.
Qed.

Lemma emits_flush (P : Event → Prop) (stream : LogOutputStream.t) :
  P (EvLog (LogOutputStream.level stream) (LogOutputStream.buf stream)) →
  emits P (LogOutputStream.flush stream).
Proof. intros HP w. eexists. split; [done|]. by constructor. Qed.

Lemma emits_project_exec `{Platform} (P : Event → Prop) (executable : File) (args : list Arg) :
  (∀ exitValue, P (EvExec (absolutePath executable) args exitValue)) →
  emits P (project_exec executable args).
Proof.
  intros HP w. unfold project_exec. case_bool_decide.
  - exists [EvExec (absolutePath executable) args
              (process (absolutePath executable) args (files w)).1].
    split; [|by constructor]. cbn zeta. by destruct (_ =? 0).
  - exists []. by rewrite app_nil_r.
Qed.

Lemma emits_File_delete (P : Event → Prop) (f : File) :
  (∀ deleted, P (EvDelete f deleted)) → emits P (File_delete f).
Proof.
  intros HP w. unfold File_delete. case_bool_decide; eexists; (split; [done|]); by constructor.
Qed.

Lemma emits_project_delete (P : Event → Prop) (tree : gset File → gset File) :
  (∀ fs f, f ∈ tree fs → P (EvDelete f true)) → emits P (project_delete tree).
Proof.
  intros HP w. eexists. split; [done|]. apply Forall_fmap, Forall_forall.
  intros f Hf%elem_of_elements. by eapply HP.
Qed.

Lemma Task_getOutputFile_child (task : Task) (file out : File) :
  Task_getOutputFile task file = inr out → ∃ n, out = File_child (Task_outputDir task) n.
Proof.
  destruct task as [material|ibl|mesh]; cbn [Task_getOutputFile Task_outputDir].
  - unfold MaterialCompiler.getOutputFile. destruct (getAt _ _ _); [done|]. intros [= <-]. eauto.
  - unfold IblGenerator.getOutputFile. destruct (getAt _ _ _); [done|]. intros [= <-]. eauto.
  - unfold MeshCompiler.getOutputFile. destruct (getAt _ _ _); [done|]. intros [= <-]. eauto.
Qed.

Lemma Task_remove_emits (P : Event → Prop) (task : Task) (file : File) :
  (∀ out deleted, Task_getOutputFile task file = inr out → P (EvDelete out deleted)) →
  emits P (Task_remove task file).
Proof.
  intros HP.
  assert (Task_remove task file = (out ← lift (Task_getOutputFile task file);
                                   _ ← File_delete out; mret tt)) as ->
    by by destruct task.
  destruct (Task_getOutputFile task file) as [e|out] eqn:Hout.
  - intros w. exists []. by rewrite app_nil_r.
  - change (emits P (File_delete out ≫= λ _, mret tt)).
    apply emits_bind; [|intros; apply emits_mret].
    apply emits_File_delete. eauto.
Qed.

Lemma Task_process_emits `{Platform} (P : Event → Prop) (task : Task) (file : File) :
  (∀ msg, P (EvLog LIFECYCLE msg)) →
  (∀ args exitValue, P (EvExec (absolutePath (Task_toolPath task)) args exitValue)) →
  emits P (Task_process task file).
Proof.
  intros Hlog Hexec.
  destruct task as [material|ibl|mesh]; cbn [Task_process Task_toolPath] in *.
  - unfold MaterialCompiler.compile. cbv zeta.
    apply emits_bind; [by apply emits_flush|]. intros _.
    apply emits_bind; [apply emits_lift|]. intros output.
    by apply emits_project_exec.
  - unfold IblGenerator.generate. cbv zeta.
    apply emits_bind; [by apply emits_flush|]. intros _.
    apply emits_bind; [by apply emits_project_exec|]. intros _.
    by apply emits_project_exec.
  - unfold MeshCompiler.compile. cbv zeta.
    apply emits_bind; [by apply emits_flush|]. intros _.
    apply emits_bind; [apply emits_lift|]. intros output.
    by apply emits_project_exec.
Qed.

Lemma Task_clean_emits (P : Event → Prop) (task : Task) (inputs : IncrementalTaskInputs) :
  (incremental inputs = false → ∀ n, P (EvDelete (File_child (Task_outputDir task) n) true)) →
  emits P (Task_clean task inputs).
Proof.
  intros HP. unfold Task_clean. destruct (incremental inputs); cbn [negb]; [apply emits_mret|].
  apply emits_project_delete. intros fs f Hf.
  destruct task; cbn [Task_outputDir] in *;
    apply elem_of_fileTree_matching in Hf as (_ & n & -> & _); by apply HP.
Qed.

Lemma Task_execute_emits `{Platform} (P : Event → Prop) (task : Task)
    (inputs : IncrementalTaskInputs) :
  (∀ msg, P (EvLog LIFECYCLE msg)) →
  (∀ args exitValue, P (EvExec (absolutePath (Task_toolPath task)) args exitValue)) →
  (incremental inputs = false → ∀ n, P (EvDelete (File_child (Task_outputDir task) n) true)) →
  (∀ r out deleted, r ∈ removed_files inputs → Task_getOutputFile task r = inr out →
                    P (EvDelete out deleted)) →
  emits P (Task_execute task inputs).
Proof.
  intros Hlog Hexec Hclean Hremove. rewrite Task_execute_eq.
  apply emits_bind; [by apply Task_clean_emits|]. intros _.
  apply emits_bind.
  - apply emits_forEach. intros file _. by apply Task_process_emits.
  - intros _. apply emits_forEach. intros r Hr. apply Task_remove_emits. eauto.
Qed.

Lemma emits_run {A} (P : Event → Prop) (m : M A) (w : World) :
  emits P m →
  ∃ outcome w' events, m w = (outcome, w') ∧ trace w' = trace w ++ events ∧ Forall P events.
Proof.
  intros Hm. destruct (Hm w) as (events & Htr & HP).
  destruct (m w) as [outcome w']. by exists outcome, w', events.
Qed.

(** X5: however a run of a task ends, the only launches it adds to the trace
    are launches of the tool of the task, and the only deletions are aimed
    at paths directly in the output directory of the task: a task launches no
    other program and deletes nothing anywhere else. *)
Theorem X5_run_keeps_to_its_tool_and_output_directory `{Platform} (task : Task)
    (inputs : IncrementalTaskInputs) (w : World) :
  ∃ outcome w' events,
    Task_execute task inputs w = (outcome, w') ∧
    trace w' = trace w ++ events ∧
    Forall (own_event task) events.
Proof.
  apply emits_run, Task_execute_emits; cbn [own_event]; [done|done|eauto|].
  intros r out deleted _ Hout. by eapply Task_getOutputFile_child.
Qed.

(** X6: in an incremental run, however it ends, the only deletions are aimed
    at the mapped outputs of removed inputs: nothing is cleaned, and the
    processing of the out-of-date inputs deletes nothing. *)
Theorem X6_incremental_run_deletes_removed_outputs_only `{Platform} (task : Task)
    (inputs : IncrementalTaskInputs) (w : World) :
  incremental inputs = true →
  ∃ outcome w' events,
    Task_execute task inputs w = (outcome, w') ∧
    trace w' = trace w ++ events ∧
    Forall (deletes_removed_outputs task inputs) events.
Proof.
  intros Hinc. apply emits_run, Task_execute_emits; cbn [deletes_removed_outputs];
    [done|done|by rewrite Hinc|eauto].
Qed.

Lemma X6_witness :
  ∃ outcome w' events,
    @Task_execute always_ok (compileMaterials material0)
      {| incremental := true; outOfDate_files := [["in"; "a.mat"]];
         removed_files := [["in"; "old.mat"]] |} world_tools = (outcome, w') ∧
    trace w' = trace world_tools ++ events ∧
    Forall (deletes_removed_outputs (compileMaterials material0)
              {| incremental := true; outOfDate_files := [["in"; "a.mat"]];
                 removed_files := [["in"; "old.mat"]] |}) events.
Proof.
  apply (@X6_incremental_run_deletes_removed_outputs_only always_ok
           (compileMaterials material0)
           {| incremental := true; outOfDate_files := [["in"; "a.mat"]];
              removed_files := [["in"; "old.mat"]] |} world_tools).
  reflexivity.
Defined.

(** ** What a run leaves in place *)

Lemma keeps_mret {A} (f : File) (a : A) : keeps f (mret a : M A).
Proof. by intros w. Qed.

Lemma keeps_lift {A} (f : File) (r : Exc A) : keeps f (lift r).
Proof. intros w. by destruct r. Qed.

Lemma keeps_bind {A B} (f : File) (m : M A) (k : A → M B) :
  keeps f m → (∀ a, keeps f (k a)) → keeps f (m ≫= k).
Proof.
  intros Hm Hk w Hf. rewrite bind_run. specialize (Hm w Hf).
  destruct (m w) as [[e|a] w1]; [done|]. by apply Hk.
Qed.

Lemma keeps_forEach {A} (f : File) (l : list A) (body : A → M unit) :
  (∀ x, x ∈ l → keeps f (body x)) → keeps f (forEach l body).
Proof.
  induction l as [|x l IH]; intros Hbody; [apply keeps_mret|].
  cbn [forEach]. apply keeps_bind; [apply Hbody; left|].
  intros _. apply IH. intros y Hy. apply Hbody. by right.
Qed.

Lemma keeps_project_exec `{Platform} (f executable : File) (args : list Arg) :
  (∀ exe args fs, f ∈ fs → f ∈ (process exe args fs).2) →
  keeps f (project_exec executable args).
Proof.
  intros Hkeeps w Hf. unfold project_exec. case_bool_decide; [|done].
  cbn zeta. destruct (_ =? 0); by apply Hkeeps.
Qed.

Lemma keeps_File_delete (f out : File) : f ≠ out → keeps f (File_delete out).
Proof. intros Hne w Hf. unfold File_delete. case_bool_decide; [|done]. cbn. set_solver. Qed.

(** A file that does not lie directly in the output directory of a task and
    that the tool leaves alone is still there after a run of the task. *)
Lemma Task_execute_keeps `{Platform} (task : Task) (inputs : IncrementalTaskInputs) (f : File) :
  (∀ n, f ≠ File_child (Task_outputDir task) n) →
  (∀ exe args fs, f ∈ fs → f ∈ (process exe args fs).2) →
  keeps f (Task_execute task inputs).
Proof.
  intros Hout Htool. rewrite Task_execute_eq.
  apply keeps_bind; [|intros _; apply keeps_bind].
  - intros w Hf. unfold Task_clean. destruct (incremental inputs); cbn [negb]; [done|].
    cbn. apply elem_of_difference. split; [done|].
    destruct task; cbn [Task_outputDir] in *;
      intros (_ & n & Heq & _)%elem_of_fileTree_matching; by apply (Hout n).
  - apply keeps_forEach. intros file _.
    destruct task as [material|ibl|mesh]; cbn [Task_process].
    + unfold MaterialCompiler.compile. cbv zeta.
      apply keeps_bind; [by intros w|]. intros _.
      apply keeps_bind; [apply keeps_lift|]. intros output. by apply keeps_project_exec.
    + unfold IblGenerator.generate. cbv zeta.
      apply keeps_bind; [by intros w|]. intros _.
      apply keeps_bind; [by apply keeps_project_exec|]. intros _.
      by apply keeps_project_exec.
    + unfold MeshCompiler.compile. cbv zeta.
      apply keeps_bind; [by intros w|]. intros _.
      apply keeps_bind; [apply keeps_lift|]. intros output. by apply keeps_project_exec.
  - intros _. apply keeps_forEach. intros r _.
    assert (Task_remove task r = (out ← lift (Task_getOutputFile task r);
                                  _ ← File_delete out; mret tt)) as ->
      by by destruct task.
    destruct (Task_getOutputFile task r) as [e|out] eqn:Hr; [by intros w|].
    change (keeps f (File_delete out ≫= λ _, mret tt)).
    apply keeps_bind; [|intros; apply keeps_mret].
    apply keeps_File_delete. intros ->.
    destruct (Task_getOutputFile_child task r out Hr) as [n Hn]. by apply (Hout n).
Qed.

(** X7: the IBL task never clears what lies in the directory its mapper gives
    for an input: the pattern [*] of the full rebuild reaches the files
    directly in the output directory only, and [File.delete] on the mapped
    directory removes no file. An artefact the tool leaves alone is there
    after any run, full rebuild or not, with the input removed or not. *)
Theorem X7_ibl_artefacts_survive_every_run `{Platform} (ibl : IblGenerator.t)
    (inputs : IncrementalTaskInputs) (w : World) (input out : File)
    (segment : string) (rest : list string) :
  let artefact := out ++ segment :: rest in
  IblGenerator.getOutputFile ibl input = inr out →
  (∀ exe args fs, artefact ∈ fs → artefact ∈ (process exe args fs).2) →
  artefact ∈ files w →
  artefact ∈ files (IblGenerator.execute ibl inputs w).2.
Proof.
  intros artefact Hout Htool Hin.
  apply (Task_execute_keeps (generateIbl ibl) inputs artefact); [|done..].
  intros n Heq. destruct (Task_getOutputFile_child (generateIbl ibl) input out Hout) as [b ->].
  subst artefact. cbn [Task_outputDir] in Heq. unfold File_child in Heq.
  rewrite <-(assoc_L (++)) in Heq. by apply app_inv_head in Heq.
Qed.

Lemma X7_witness :
  ["out"; "env"; "m0_px.rgbm"]
    ∈ files (@IblGenerator.execute always_ok ibl0
               {| incremental := false; outOfDate_files := [];
                  removed_files := [["in"; "env.hdr"]] |} world_ibl).2.
Proof.
  apply (@X7_ibl_artefacts_survive_every_run always_ok ibl0
           {| incremental := false; outOfDate_files := [];
              removed_files := [["in"; "env.hdr"]] |}
           world_ibl ["in"; "env.hdr"] ["out"; "env"] "m0_px.rgbm" []).
  - reflexivity.
  - intros exe args fs Hin. exact Hin.
  - vm_compute. reflexivity.
Defined.

(** ** The launches of the material and mesh tasks *)

Section one_launch_per_input.
Context `{Platform} (tool : File) (mapper : File → Exc File)
  (arguments : File → File → list Arg) (header : File → string).

(** The shape the closures of the material and mesh tasks share. *)
Let closure (file : File) : M unit :=
  let out := LogOutputStream.new LIFECYCLE in
  out ← LogOutputStream.flush (LogOutputStream.write out (header file));
  output ← lift (mapper file);
  project_exec tool (arguments output file).

Hypothesis tool_zero : ∀ args fs, (process (absolutePath tool) args fs).1 = 0.
Hypothesis tool_stays : ∀ args fs, tool ∈ fs → tool ∈ (process (absolutePath tool) args fs).2.

Lemma loop_launches_once (l : list File) (w : World) :
  tool ∈ files w →
  (∀ f, f ∈ l → ∃ out, mapper f = inr out) →
  ∃ w' new,
    forEach l closure w = (inr tt, w') ∧
    tool ∈ files w' ∧
    launches (trace w') = launches (trace w) ++ new ∧
    Forall2 (λ file launch, ∃ out, mapper file = inr out
                                   ∧ launch = (absolutePath tool, arguments out file)) l new.
Proof.
  revert w. induction l as [|file l IH]; intros w Hexe Hmap.
  - exists w, []. by rewrite app_nil_r.
  - destruct (Hmap file) as [out Hout]; [left|].
    rewrite forEach_cons. unfold closure at 1. cbv zeta.
    rewrite bind_run, flush_header. cbv beta iota.
    rewrite bind_run, Hout. cbn [lift]. unfold mret at 1, M_ret at 1.
    rewrite project_exec_ok by (done || apply tool_zero).
    match goal with |- context [forEach l _ ?w1] =>
      destruct (IH w1) as (w' & new & -> & Hexe' & Htr & Hall) end.
    { cbn [files]. by apply tool_stays. }
    { intros f Hf. apply Hmap. by right. }
    exists w', ((absolutePath tool, arguments out file) :: new). split_and!; [done..| |].
    + rewrite Htr. cbn [trace]. rewrite !launches_app.
      change (launches [EvLog ?l ?m]) with (@nil (string * list Arg)).
      change (launches [EvExec ?e ?a ?c]) with [(e, a)].
      by rewrite app_nil_r, <-(assoc_L (++)).
    + constructor; eauto.
Qed.
End one_launch_per_input.

(** X9: as long as matc returns normally, a run of the material task
    launches matc exactly once for every out-of-date input, in the order of
    the inputs, with [-O -p mobile -o <mapped output> <input>], and it
    launches nothing else. *)
Theorem X9_material_launches_matc_once_per_input `{Platform}
    (material : MaterialCompiler.t) (inputs : IncrementalTaskInputs) (w : World) :
  let matc := absolutePath (MaterialCompiler.matcPath material) in
  (∀ args fs, (process matc args fs).1 = 0) →
  (∀ args fs, MaterialCompiler.matcPath material ∈ fs →
              MaterialCompiler.matcPath material ∈ (process matc args fs).2) →
  MaterialCompiler.matcPath material ∈ files w →
  (∀ n, MaterialCompiler.matcPath material ≠ File_child (MaterialCompiler.outputDir material) n) →
  (∀ f, f ∈ outOfDate_files inputs → name f ≠ "") →
  ∃ outcome w' new,
    MaterialCompiler.execute material inputs w = (outcome, w') ∧
    launches (trace w') = launches (trace w) ++ new ∧
    Forall2 (λ file launch,
               ∃ out, MaterialCompiler.getOutputFile material file = inr out ∧
                      launch = (matc, [AString "-O"; AString "-p"; AString "mobile";
                                       AString "-o"; AFile out; AFile file]))
      (outOfDate_files inputs) new.
Proof.
  intros matc Hzero Hstays Hexe Hout Hnames.
  change (MaterialCompiler.execute material inputs)
    with (Task_execute (compileMaterials material) inputs).
  rewrite Task_execute_eq, bind_run.
  assert (∃ wc, Task_clean (compileMaterials material) inputs w = (inr tt, wc)
                ∧ MaterialCompiler.matcPath material ∈ files wc
                ∧ launches (trace wc) = launches (trace w)) as (wc & -> & Hexe_c & Htr_c).
  { unfold Task_clean. destruct (incremental inputs); cbn [negb]; [by exists w|].
    unfold project_delete. eexists. split; [done|]. cbn [files trace]. split.
    - apply elem_of_difference. split; [done|].
      intros (_ & n & Heq & _)%elem_of_fileTree_matching. by apply (Hout n).
    - by rewrite launches_app, launches_deletes, app_nil_r. }
  rewrite bind_run. unfold outOfDate. cbn [Task_process].
  destruct (loop_launches_once (MaterialCompiler.matcPath material)
              (MaterialCompiler.getOutputFile material)
              (λ out file, [AString "-O"; AString "-p"; AString "mobile";
                            AString "-o"; AFile out; AFile file])
              (λ file, "Compiling material " +:+ absolutePath file +:+ newline)
              Hzero Hstays (outOfDate_files inputs) wc Hexe_c)
    as (w1 & new & Hloop & _ & Htr1 & Hall).
  { intros f Hf.
    by destruct (material_mesh_mappers_total material mesh0 f (Hnames f Hf)) as [? _]. }
  change (forEach (outOfDate_files inputs) (MaterialCompiler.compile material) wc = (inr (), w1))
    in Hloop.
  rewrite Hloop. unfold removed.
  destruct (removed_only_deletes (compileMaterials material) (removed_files inputs) w1)
    as (outcome & w' & -> & _ & Htr').
  exists outcome, w', new. split_and!; [done| |done]. by rewrite Htr', Htr1, Htr_c.
Qed.

Lemma X9_witness :
  ∃ outcome w' new,
    @MaterialCompiler.execute always_ok material0
      {| incremental := false; outOfDate_files := [["in"; "lit.mat"]; ["in"; "mesh"]];
         removed_files := [] |} world_tools = (outcome, w') ∧
    launches (trace w') = launches (trace world_tools) ++ new ∧
    Forall2 (λ file launch,
               ∃ out, MaterialCompiler.getOutputFile material0 file = inr out ∧
                      launch = ("/tools/bin/matc",
                                [AString "-O"; AString "-p"; AString "mobile";
                                 AString "-o"; AFile out; AFile file]))
      [["in"; "lit.mat"]; ["in"; "mesh"]] new.
Proof.
  apply (@X9_material_launches_matc_once_per_input always_ok material0
           {| incremental := false; outOfDate_files := [["in"; "lit.mat"]; ["in"; "mesh"]];
              removed_files := [] |} world_tools).
  - reflexivity.
  - intros args fs Hin. exact Hin.
  - vm_compute. reflexivity.
  - intros n Heq. discriminate Heq.
  - intros f Hf. inversion Hf as [|? ? ? Hf']; [discriminate|].
    inversion Hf' as [|? ? ? Hf'']; [discriminate|inversion Hf''].
Defined.

(** X10: as long as filamesh returns normally, a run of the mesh task
    launches filamesh exactly once for every out-of-date input, in the order
    of the inputs, with the input first and the mapped output second, and it
    launches nothing else. *)
Theorem X10_mesh_launches_filamesh_once_per_input `{Platform}
    (mesh : MeshCompiler.t) (inputs : IncrementalTaskInputs) (w : World) :
  let filamesh := absolutePath (MeshCompiler.filameshPath mesh) in
  (∀ args fs, (process filamesh args fs).1 = 0) →
  (∀ args fs, MeshCompiler.filameshPath mesh ∈ fs →
              MeshCompiler.filameshPath mesh ∈ (process filamesh args fs).2) →
  MeshCompiler.filameshPath mesh ∈ files w →
  (∀ n, MeshCompiler.filameshPath mesh ≠ File_child (MeshCompiler.outputDir mesh) n) →
  (∀ f, f ∈ outOfDate_files inputs → name f ≠ "") →
  ∃ outcome w' new,
    MeshCompiler.execute mesh inputs w = (outcome, w') ∧
    launches (trace w') = launches (trace w) ++ new ∧
    Forall2 (λ file launch,
               ∃ out, MeshCompiler.getOutputFile mesh file = inr out ∧
                      launch = (filamesh, [AFile file; AFile out]))
      (outOfDate_files inputs) new.
Proof.
  intros filamesh Hzero Hstays Hexe Hout Hnames.
  change (MeshCompiler.execute mesh inputs) with (Task_execute (compileMesh mesh) inputs).
  rewrite Task_execute_eq, bind_run.
  assert (∃ wc, Task_clean (compileMesh mesh) inputs w = (inr tt, wc)
                ∧ MeshCompiler.filameshPath mesh ∈ files wc
                ∧ launches (trace wc) = launches (trace w)) as (wc & -> & Hexe_c & Htr_c).
  { unfold Task_clean. destruct (incremental inputs); cbn [negb]; [by exists w|].
    unfold project_delete. eexists. split; [done|]. cbn [files trace]. split.
    - apply elem_of_difference. split; [done|].
      intros (_ & n & Heq & _)%elem_of_fileTree_matching. by apply (Hout n).
    - by rewrite launches_app, launches_deletes, app_nil_r. }
  rewrite bind_run. unfold outOfDate. cbn [Task_process].
  destruct (loop_launches_once (MeshCompiler.filameshPath mesh)
              (MeshCompiler.getOutputFile mesh)
              (λ out file, [AFile file; AFile out])
              (λ file, "Compiling mesh " +:+ absolutePath file +:+ newline)
              Hzero Hstays (outOfDate_files inputs) wc Hexe_c)
    as (w1 & new & Hloop & _ & Htr1 & Hall).
  { intros f Hf.
    by destruct (material_mesh_mappers_total material0 mesh f (Hnames f Hf)) as [_ ?]. }
  change (forEach (outOfDate_files inputs) (MeshCompiler.compile mesh) wc = (inr (), w1))
    in Hloop.
  rewrite Hloop. unfold removed.
  destruct (removed_only_deletes (compileMesh mesh) (removed_files inputs) w1)
    as (outcome & w' & -> & _ & Htr').
  exists outcome, w', new. split_and!; [done| |done]. by rewrite Htr', Htr1, Htr_c.
Qed.

Lemma X10_witness :
  ∃ outcome w' new,
    @MeshCompiler.execute always_ok mesh0
      {| incremental := true; outOfDate_files := [["in"; "bunny.obj"]];
         removed_files := [] |} world_tools = (outcome, w') ∧
    launches (trace w') = launches (trace world_tools) ++ new ∧
    Forall2 (λ file launch,
               ∃ out, MeshCompiler.getOutputFile mesh0 file = inr out ∧
                      launch = ("/tools/bin/filamesh", [AFile file; AFile out]))
      [["in"; "bunny.obj"]] new.
Proof.
  apply (@X10_mesh_launches_filamesh_once_per_input always_ok mesh0
           {| incremental := true; outOfDate_files := [["in"; "bunny.obj"]];
              removed_files := [] |} world_tools).
  - reflexivity.
  - intros args fs Hin. exact Hin.
  - vm_compute. reflexivity.
  - intros n Heq. discriminate Heq.
  - intros f Hf. inversion Hf as [|? ? ? Hf']; [discriminate|inversion Hf'].
Defined.

(** ** The log stream *)

Lemma joined_cons (chunk : string) (chunks : list string) :
  joined (chunk :: chunks) = chunk +:+ joined chunks.
Proof. reflexivity. Qed.

(** X11: a flush logs all that was written to the stream since the last one,
    in the order of the writes and as one message at the level of the
    stream; it touches no file and leaves the stream empty, so that a flush
    with nothing written in between logs the empty message. *)
Theorem X11_flush_logs_the_writes_and_empties_the_stream
    (stream : LogOutputStream.t) (chunks : list string) (w : World) :
  LogOutputStream.flush (foldl LogOutputStream.write stream chunks) w
    = (inr {| LogOutputStream.level := LogOutputStream.level stream;
              LogOutputStream.buf := "" |},
       {| files := files w;
          trace := trace w ++ [EvLog (LogOutputStream.level stream)
                                 (LogOutputStream.buf stream +:+ joined chunks)] |}).
Proof.
  revert stream. induction chunks as [|chunk chunks IH]; intros stream.
  - cbn [foldl]. unfold joined. cbn [foldr]. by rewrite append_empty_r.
  - cbn [foldl]. rewrite IH, joined_cons. cbn [LogOutputStream.write
      LogOutputStream.level LogOutputStream.buf]. by rewrite append_assoc.
Qed.

(** ** The top of the script *)

Lemma getBinaries_cases (tool : string) (toolsPath : File) (fs : gset File) :
  getBinaries tool toolsPath fs
    = if has_binary toolsPath fs tool
      then inr (binaries toolsPath tool)
      else inl (not_found toolsPath tool).
Proof.
  unfold getBinaries, has_binary. cbn [fmap list_fmap existsb].
  rewrite orb_false_r. by destruct (_ || _).
Qed.

Lemma script_cases (file : string → File) (filament_tools_dir : option string)
    (fs : gset File) :
  let toolsPath := file (default "../../../../out/release/filament" filament_tools_dir) in
  script file filament_tools_dir fs
    = if negb (has_binary toolsPath fs "matc") then inl (not_found toolsPath "matc")
      else if negb (has_binary toolsPath fs "cmgen") then inl (not_found toolsPath "cmgen")
      else if negb (has_binary toolsPath fs "filamesh") then inl (not_found toolsPath "filamesh")
      else inr {| ext_matcFullPath := binaries toolsPath "matc";
                  ext_cmgenFullPath := binaries toolsPath "cmgen";
                  ext_filameshFullPath := binaries toolsPath "filamesh" |}.
Proof.
  intros toolsPath. unfold script.
  replace (match filament_tools_dir with
           | Some dir => file dir
           | None => file "../../../../out/release/filament"
           end) with toolsPath by by destruct filament_tools_dir.
  rewrite !getBinaries_cases.
  by destruct (has_binary toolsPath fs "matc"), (has_binary toolsPath fs "cmgen"),
    (has_binary toolsPath fs "filamesh").
Qed.

(** X12: the script gets through its three look-ups exactly when each of
    matc, cmgen and filamesh has one of its two binaries under the tools
    directory, which is the one of the property [filament_tools_dir] when
    there is one. When it throws, the exception names the first of the three,
    in that order, that has no binary, whatever the state of the ones after
    it. *)
Theorem X12_script_needs_a_binary_of_each_tool
    (file : string → File) (filament_tools_dir : option string) (fs : gset File) :
  let toolsPath := file (default "../../../../out/release/filament" filament_tools_dir) in
  ((∃ ext, script file filament_tools_dir fs = inr ext)
   ↔ Forall (λ tool, has_binary toolsPath fs tool = true) ["matc"; "cmgen"; "filamesh"]) ∧
  (∀ e, script file filament_tools_dir fs = inl e →
        ∃ found tool rest,
          ["matc"; "cmgen"; "filamesh"] = found ++ tool :: rest ∧
          Forall (λ t, has_binary toolsPath fs t = true) found ∧
          has_binary toolsPath fs tool = false ∧
          e = not_found toolsPath tool).
Proof.
  intros toolsPath. rewrite (script_cases file filament_tools_dir fs). fold toolsPath.
  rewrite !Forall_cons, Forall_nil.
  destruct (has_binary toolsPath fs "matc") eqn:Hmatc; cbn [negb].
  2:{ split; [split; [by intros [? ?]|by intros [? _]]|].
      intros e [= <-]. by exists [], "matc", ["cmgen"; "filamesh"]. }
  destruct (has_binary toolsPath fs "cmgen") eqn:Hcmgen; cbn [negb].
  2:{ split; [split; [by intros [? ?]|by intros (_ & ? & _)]|].
      intros e [= <-]. exists ["matc"], "cmgen", ["filamesh"]. by repeat constructor. }
  destruct (has_binary toolsPath fs "filamesh") eqn:Hfilamesh; cbn [negb].
  2:{ split; [split; [by intros [? ?]|by intros (_ & _ & ? & _)]|].
      intros e [= <-]. exists ["matc"; "cmgen"], "filamesh", []. by repeat constructor. }
  split; [|done]. split; [done|eauto].
Qed.

(** ** The header of an input *)

Lemma emits_anything {A} (m : M A) : emits (λ _, True) m → ∀ w, ∃ events,
  trace (m w).2 = trace w ++ events.
Proof. intros Hm w. destruct (Hm w) as (events & Htr & _). eauto. Qed.

(** X13: whatever becomes of an input, its processing begins by logging the
    header of the task with the path of the input: the header is in the
    trace, before anything else the processing adds, also when the mapper or
    the launch throws. *)
Theorem X13_header_logged_first `{Platform}
    (material : MaterialCompiler.t) (ibl : IblGenerator.t) (mesh : MeshCompiler.t)
    (file : File) (w : World) :
  (∃ events, trace (MaterialCompiler.compile material file w).2
     = trace w ++ EvLog LIFECYCLE ("Compiling material " +:+ absolutePath file +:+ newline)
                  :: events) ∧
  (∃ events, trace (IblGenerator.generate ibl file w).2
     = trace w ++ EvLog LIFECYCLE ("Generating IBL " +:+ absolutePath file +:+ newline)
                  :: events) ∧
  (∃ events, trace (MeshCompiler.compile mesh file w).2
     = trace w ++ EvLog LIFECYCLE ("Compiling mesh " +:+ absolutePath file +:+ newline)
                  :: events).
Proof.
  assert (∀ (exe : File) (args : list Arg), emits (λ _, True) (project_exec exe args)) as Hexec
    by (intros; by apply emits_project_exec).
  split_and!.
  - unfold MaterialCompiler.compile. cbv zeta. rewrite bind_run, flush_header. cbv beta iota.
    match goal with |- context [(?m ≫= ?k) ?w1] =>
      destruct (emits_anything (m ≫= k)) with (w := w1) as [events Htr] end.
    { apply emits_bind; [apply emits_lift|]. intros. apply Hexec. }
    exists events. rewrite Htr. cbn [trace]. by rewrite <-(assoc_L (++)).
  - unfold IblGenerator.generate. cbv zeta. rewrite bind_run, flush_header. cbv beta iota.
    match goal with |- context [(?m ≫= ?k) ?w1] =>
      destruct (emits_anything (m ≫= k)) with (w := w1) as [events Htr] end.
    { apply emits_bind; [apply Hexec|]. intros. apply Hexec. }
    exists events. rewrite Htr. cbn [trace]. by rewrite <-(assoc_L (++)).
  - unfold MeshCompiler.compile. cbv zeta. rewrite bind_run, flush_header. cbv beta iota.
    match goal with |- context [(?m ≫= ?k) ?w1] =>
      destruct (emits_anything (m ≫= k)) with (w := w1) as [events Htr] end.
    { apply emits_bind; [apply emits_lift|]. intros. apply Hexec. }
    exists events. rewrite Htr. cbn [trace]. by rewrite <-(assoc_L (++)).
Qed.
